(** * dro_surgeon: a shallow embedding of the DRO v2 channel tools

    The Python program [dro_surgeon.py] reads a DRO v2.0 register log of an
    OPL2/OPL3 chip and dumps it, removes one channel from it, isolates one
    channel of it, or computes a pitch-shifted frequency pair.

    Conventions of the embedding:
    - a Python [int] is a [Z]; a [bytes] object is a [list Z] (each element
      a byte value); positions and counters are [nat];
    - [data[i]] is [index data i], which raises [IndexError] out of range;
      a slice [data[a:b]] never raises and is [slice data a b];
    - exceptions are the [Raise] outcome of the small monad [py];
    - a [while] loop is a [Fixpoint] on a fuel argument that carries the
      loop's variables; running out of fuel is the outcome [Diverge], and
      the theorems show that the entry points never produce it;
    - reading the input file and writing the output file are left out: an
      entry point takes the bytes read and returns what it would write or
      print. *)

From Stdlib Require Import String Ascii.
From Stdlib Require Import ZArith List Bool Lia Floats.
Import ListNotations.
Open Scope Z_scope.

(** ** Python outcomes *)

Inductive exn : Set := IndexError | StructError | OverflowError | ValueError.

Inductive py (A : Type) : Type :=
| Ret (a : A)
| Raise (e : exn)
| Diverge.

Arguments Ret {A} a.
Arguments Raise {A} e.
Arguments Diverge {A}.

Definition bind {A B : Type} (m : py A) (k : A -> py B) : py B :=
  match m with
  | Ret a => k a
  | Raise e => Raise e
  | Diverge => Diverge
  end.

Notation "x <- m ;; k" := (bind m (fun x => k))
  (at level 61, m at next level, right associativity).

(** [seq[i]] for [0 <= i]. *)
Definition index (l : list Z) (i : nat) : py Z :=
  match nth_error l i with
  | Some x => Ret x
  | None => Raise IndexError
  end.

(** [seq[a:b]] for [0 <= a <= b]. *)
Definition slice (l : list Z) (a b : nat) : list Z := firstn (b - a) (skipn a l).

Fixpoint bytes_eqb (l1 l2 : list Z) : bool :=
  match l1, l2 with
  | [], [] => true
  | x :: l1', y :: l2' => (x =? y) && bytes_eqb l1' l2'
  | _, _ => false
  end.

(** [struct.unpack('<H', bs)[0]]: the buffer must hold exactly two bytes. *)
Definition unpack_H (bs : list Z) : py Z :=
  match bs with
  | [b0; b1] => Ret (b0 + 256 * b1)
  | _ => Raise StructError
  end.

(** The bytes of an ASCII literal such as [b'DBRAWOPL']. *)
Definition bytes_of_string (s : string) : list Z :=
  map (fun c => Z.of_N (N_of_ascii c)) (list_ascii_of_string s).

Definition magic : list Z := Eval cbv in bytes_of_string "DBRAWOPL".

(** ** Channel classifier ([get_channel_from_reg]) *)

(** The value returned for a register that belongs to no channel. *)
Definition Global : Z := -1.

(** Python's chained comparison [lo <= x <= hi]. *)
Definition between (lo x hi : Z) : bool := (lo <=? x) && (x <=? hi).

Definition op_ch_map : list Z :=
  [0; 1; 2; 0; 1; 2; -1; -1; 3; 4; 5; 3; 4; 5; -1; -1; 6; 7; 8; 6; 7; 8].

Definition base_ch (bank : Z) : Z := if bank =? 0 then 0 else 9.

Definition is_channel_reg (reg : Z) : bool :=
  between 0xA0 reg 0xA8 || between 0xB0 reg 0xB8 || between 0xC0 reg 0xC8.

Definition is_operator_reg (reg : Z) : bool :=
  between 0x20 reg 0x35 || between 0x40 reg 0x55 || between 0x60 reg 0x75
  || between 0x80 reg 0x95 || between 0xE0 reg 0xF5.

Definition get_channel_from_reg (bank reg : Z) : Z :=
  if is_channel_reg reg then base_ch bank + Z.land reg 0x0F
  else if is_operator_reg reg then
    let offset := reg mod 0x20 in
    if offset >? 0x15 then -1
    else if offset <? Z.of_nat (length op_ch_map) then
      match nth_error op_ch_map (Z.to_nat offset) with
      | Some ch_offset =>
          if negb (ch_offset =? -1) then base_ch bank + ch_offset else -1
      | None => -1
      end
    else -1
  else -1.

(** The register ranges as propositions, as the specification words them. *)
Definition channel_range (reg : Z) : Prop :=
  0xA0 <= reg <= 0xA8 \/ 0xB0 <= reg <= 0xB8 \/ 0xC0 <= reg <= 0xC8.

Definition operator_range (reg : Z) : Prop :=
  0x20 <= reg <= 0x35 \/ 0x40 <= reg <= 0x55 \/ 0x60 <= reg <= 0x75
  \/ 0x80 <= reg <= 0x95 \/ 0xE0 <= reg <= 0xF5.

(** ** Outcome of a file command

    The three file commands start with the same checks of the header; each
    prints an error and returns when a check fails. *)

Inductive result (A : Type) : Type :=
| BadMagic            (* "Error: Not a valid DRO file", then return *)
| UnsupportedVersion  (* "Error: Only DRO v2.0 is supported", then return *)
| Done (a : A).

Arguments BadMagic {A}.
Arguments UnsupportedVersion {A}.
Arguments Done {A} a.

Definition bank_of (code : Z) : Z := Z.land (Z.shiftr code 7) 1.
Definition index_of (code : Z) : Z := Z.land code 0x7F.

(** ** Remove ([remove_channel]) *)

Fixpoint remove_loop (fuel : nat) (data codemap : list Z)
    (short_delay_code long_delay_code target_channel : Z)
    (i : nat) (out_data : list Z) (dropped_commands : nat)
    : py (list Z * nat) :=
  match fuel with
  | O => Diverge
  | S fuel =>
    if (i <? length data)%nat then
      code <- index data i ;;
      let i := S i in
      if (code =? short_delay_code) || (code =? long_delay_code) then
        val <- index data i ;;
        let i := S i in
        remove_loop fuel data codemap short_delay_code long_delay_code
          target_channel i (out_data ++ [code; val]) dropped_commands
      else
        val <- index data i ;;
        let i := S i in
        let bank := bank_of code in
        let idx := index_of code in
        if idx >=? Z.of_nat (length codemap) then
          remove_loop fuel data codemap short_delay_code long_delay_code
            target_channel i (out_data ++ [code; val]) dropped_commands
        else
          reg <- index codemap (Z.to_nat idx) ;;
          let ch := get_channel_from_reg bank reg in
          if ch =? target_channel then
            remove_loop fuel data codemap short_delay_code long_delay_code
              target_channel i out_data (S dropped_commands)
          else
            remove_loop fuel data codemap short_delay_code long_delay_code
              target_channel i (out_data ++ [code; val]) dropped_commands
    else Ret (out_data, dropped_commands)
  end.

(** The bytes written to the output file and the number printed after
    "Dropped". *)
Definition remove_channel (data : list Z) (target_channel : Z)
    : py (result (list Z * nat)) :=
  if negb (bytes_eqb (slice data 0 8) magic) then Ret BadMagic else
  ver_major <- unpack_H (slice data 8 10) ;;
  if negb (ver_major =? 2) then Ret UnsupportedVersion else
  short_delay_code <- index data 23 ;;
  long_delay_code <- index data 24 ;;
  codemap_len <- index data 25 ;;
  let codemap_start := 26%nat in
  let codemap := slice data codemap_start (codemap_start + Z.to_nat codemap_len) in
  let stream_start := (codemap_start + Z.to_nat codemap_len)%nat in
  let out_data := slice data 0 stream_start in
  r <- remove_loop (S (length data)) data codemap short_delay_code
         long_delay_code target_channel stream_start out_data 0 ;;
  Ret (Done r).

(** ** Isolate ([isolate_channel]) *)

Fixpoint isolate_loop (fuel : nat) (data codemap : list Z)
    (short_delay_code long_delay_code target_channel : Z)
    (i : nat) (out_data : list Z) (dropped_commands : nat)
    : py (list Z * nat) :=
  match fuel with
  | O => Diverge
  | S fuel =>
    if (i <? length data)%nat then
      code <- index data i ;;
      let i := S i in
      if (code =? short_delay_code) || (code =? long_delay_code) then
        val <- index data i ;;
        let i := S i in
        isolate_loop fuel data codemap short_delay_code long_delay_code
          target_channel i (out_data ++ [code; val]) dropped_commands
      else
        val <- index data i ;;
        let i := S i in
        let bank := bank_of code in
        let idx := index_of code in
        if idx >=? Z.of_nat (length codemap) then
          isolate_loop fuel data codemap short_delay_code long_delay_code
            target_channel i (out_data ++ [code; val]) dropped_commands
        else
          reg <- index codemap (Z.to_nat idx) ;;
          let ch := get_channel_from_reg bank reg in
          if reg =? 0xBD then
            isolate_loop fuel data codemap short_delay_code long_delay_code
              target_channel i (out_data ++ [code; val]) dropped_commands
          else if (ch =? target_channel) || (ch =? -1) then
            isolate_loop fuel data codemap short_delay_code long_delay_code
              target_channel i (out_data ++ [code; val]) dropped_commands
          else
            isolate_loop fuel data codemap short_delay_code long_delay_code
              target_channel i out_data (S dropped_commands)
    else Ret (out_data, dropped_commands)
  end.

Definition isolate_channel (data : list Z) (target_channel : Z)
    : py (result (list Z * nat)) :=
  if negb (bytes_eqb (slice data 0 8) magic) then Ret BadMagic else
  ver_major <- unpack_H (slice data 8 10) ;;
  if negb (ver_major =? 2) then Ret UnsupportedVersion else
  short_delay_code <- index data 23 ;;
  long_delay_code <- index data 24 ;;
  codemap_len <- index data 25 ;;
  let codemap_start := 26%nat in
  let codemap := slice data codemap_start (codemap_start + Z.to_nat codemap_len) in
  let stream_start := (codemap_start + Z.to_nat codemap_len)%nat in
  let out_data := slice data 0 stream_start in
  r <- isolate_loop (S (length data)) data codemap short_delay_code
         long_delay_code target_channel stream_start out_data 0 ;;
  Ret (Done r).

(** ** Dumper ([dump_dro]) *)

Open Scope string_scope.
Open Scope Z_scope.

(** Number formatting of Python's f-strings. *)
Definition digit (d : Z) : ascii :=
  match String.get (Z.to_nat d) "0123456789ABCDEF" with
  | Some c => c
  | None => "?"%char
  end.

Fixpoint digits (fuel : nat) (base n : Z) (acc : string) : string :=
  match fuel with
  | O => acc
  | S fuel =>
    let acc := String (digit (n mod base)) acc in
    if n / base =? 0 then acc else digits fuel base (n / base) acc
  end.

Definition numeral (base n : Z) : string :=
  if n <? 0 then "-" ++ digits (S (Z.to_nat (Z.log2 (- n)))) base (- n) ""
  else digits (S (Z.to_nat (Z.log2 n))) base n "".

Fixpoint repeat_char (c : ascii) (n : nat) : string :=
  match n with
  | O => ""
  | S n => String c (repeat_char c n)
  end.

(** [{n}], [{n:02X}] and [{n:08X}] (for [0 <= n], as every number printed
    in hexadecimal is a byte or an offset), [{s:<8}], [{b}] for a bool. *)
Definition dec (n : Z) : string := numeral 10 n.
Definition hex (width : nat) (n : Z) : string :=
  let s := numeral 16 n in repeat_char "0" (width - String.length s) ++ s.
Definition ljust (width : nat) (s : string) : string :=
  s ++ repeat_char " " (width - String.length s).
Definition str_bool (b : bool) : string := if b then "True" else "False".

(** One printed line of the table: the columns, and how they are laid out. *)
Inductive line : Set :=
| Text (s : string)
| Row (offset : nat) (time_accum bank reg val : Z) (desc : string)
| BadIndexRow (offset : nat) (time_accum bank idx val : Z) (desc : string).

Definition render (l : line) : string :=
  match l with
  | Text s => s
  | Row offset time_accum bank reg val desc =>
      hex 8 (Z.of_nat offset) ++ "   | " ++ ljust 8 (dec time_accum) ++ " | "
      ++ dec bank ++ "   | " ++ hex 2 reg ++ "   | " ++ hex 2 val ++ "   | " ++ desc
  | BadIndexRow offset time_accum bank idx val desc =>
      hex 8 (Z.of_nat offset) ++ "   | " ++ ljust 8 (dec time_accum) ++ " | "
      ++ dec bank ++ "   | " ++ hex 2 idx ++ "?  | " ++ hex 2 val ++ "   | " ++ desc
  end.

(** The cascade that builds [desc] from the register and the value. *)
Definition describe (reg val : Z) : string :=
  if between 0xB0 reg 0xB8 then
    let ch := reg - 0xB0 in
    let key_on := negb (Z.land val 0x20 =? 0) in
    let block := Z.shiftr (Z.land val 0x1C) 2 in
    let f_high := Z.land val 0x03 in
    let desc := "CH " ++ dec ch ++ " | KeyOn: " ++ str_bool key_on
                ++ " | Blk: " ++ dec block ++ " | F-Hi: " ++ dec f_high in
    if key_on then desc ++ " <--- NOTE START" else desc
  else if between 0xA0 reg 0xA8 then
    let ch := reg - 0xA0 in
    "CH " ++ dec ch ++ " | F-Low: " ++ dec val
  else if between 0xC0 reg 0xC8 then
    let ch := reg - 0xC0 in
    let fb := Z.shiftr (Z.land val 0x0E) 1 in
    let cnt := Z.land val 1 in
    "CH " ++ dec ch ++ " | FB: " ++ dec fb ++ " | CNT: " ++ dec cnt
  else if between 0x20 reg 0x35 then
    "OP-Reg " ++ hex 2 reg ++ " | TVSKM"
  else if between 0x40 reg 0x55 then
    "OP-Reg " ++ hex 2 reg ++ " | Level: " ++ dec (Z.land val 0x3F)
  else if reg =? 0xBD then "Rhythm Control"
  else "".

Definition is_empty (s : string) : bool :=
  match s with EmptyString => true | String _ _ => false end.

(** The loop returns the lines printed so far and the final value of
    [time_accum]. *)
Fixpoint dump_loop (fuel : nat) (data codemap : list Z)
    (short_delay_code long_delay_code : Z)
    (i : nat) (time_accum : Z) (printed : list line) : py (list line * Z) :=
  match fuel with
  | O => Diverge
  | S fuel =>
    if (i <? length data)%nat then
      let offset := i in
      code <- index data i ;;
      let i := S i in
      if code =? short_delay_code then
        if (length data <=? i)%nat then Ret (printed, time_accum) else
        val <- index data i ;;
        let i := S i in
        let delay := val + 1 in
        dump_loop fuel data codemap short_delay_code long_delay_code
          i (time_accum + delay) printed
      else if code =? long_delay_code then
        if (length data <=? i)%nat then Ret (printed, time_accum) else
        val <- index data i ;;
        let i := S i in
        let delay := (val + 1) * 256 in
        dump_loop fuel data codemap short_delay_code long_delay_code
          i (time_accum + delay) printed
      else
        if (length data <=? i)%nat then Ret (printed, time_accum) else
        val <- index data i ;;
        let i := S i in
        let bank := bank_of code in
        let idx := index_of code in
        if idx >=? Z.of_nat (length codemap) then
          let desc := "ERROR: Index " ++ dec idx ++ " out of bounds" in
          dump_loop fuel data codemap short_delay_code long_delay_code
            i time_accum
            (printed ++ [BadIndexRow offset time_accum bank idx val desc])%list
        else
          reg <- index codemap (Z.to_nat idx) ;;
          let desc := describe reg val in
          if negb (is_empty desc) then
            dump_loop fuel data codemap short_delay_code long_delay_code
              i time_accum
              (printed ++ [Row offset time_accum bank reg val desc])%list
          else
            dump_loop fuel data codemap short_delay_code long_delay_code
              i time_accum printed
    else Ret (printed, time_accum)
  end.

Definition table_header : string :=
  ljust 10 "OFFSET(h)" ++ " | " ++ ljust 8 "TIME(ms)" ++ " | " ++ ljust 3 "BNK"
  ++ " | " ++ ljust 4 "REG" ++ " | " ++ ljust 4 "VAL" ++ " | " ++ "DESC".

Definition header_info (short_delay_code long_delay_code codemap_len : Z) : string :=
  "Header Info: ShortDelay=0x" ++ hex 2 short_delay_code
  ++ ", LongDelay=0x" ++ hex 2 long_delay_code
  ++ ", CodemapLen=" ++ dec codemap_len.

Definition dump_dro (data : list Z) : py (result (list line * Z)) :=
  if negb (bytes_eqb (slice data 0 8) magic) then Ret BadMagic else
  ver_major <- unpack_H (slice data 8 10) ;;
  ver_minor <- unpack_H (slice data 10 12) ;;
  if negb (ver_major =? 2) then Ret UnsupportedVersion else
  short_delay_code <- index data 23 ;;
  long_delay_code <- index data 24 ;;
  codemap_len <- index data 25 ;;
  let printed :=
    [Text (header_info short_delay_code long_delay_code codemap_len)] in
  let codemap_start := 26%nat in
  let codemap := slice data codemap_start (codemap_start + Z.to_nat codemap_len) in
  let i := (codemap_start + Z.to_nat codemap_len)%nat in
  let time_accum := 0 in
  let printed :=
    (printed ++ [Text table_header; Text (repeat_char "-" 70)])%list in
  r <- dump_loop (S (length data)) data codemap short_delay_code
         long_delay_code i time_accum printed ;;
  Ret (Done r).

Close Scope string_scope.

(** ** Pitch shift ([calc_shift]) *)

(** [float(n)] for an [int] of at most 53 bits, where the conversion is
    exact; every frequency number built from two bytes is in that range. *)
Definition float_of_int (n : Z) : float :=
  if n <? 0 then PrimFloat.opp (PrimFloat.of_uint63 (Uint63.of_Z (- n)))
  else PrimFloat.of_uint63 (Uint63.of_Z n).

(** [int(x)]: truncation toward zero; an infinity raises [OverflowError]
    and a NaN raises [ValueError]. *)
Definition int_of_float (x : float) : py Z :=
  match Prim2SF x with
  | SpecFloat.S754_zero _ => Ret 0
  | SpecFloat.S754_infinity _ => Raise OverflowError
  | SpecFloat.S754_nan => Raise ValueError
  | SpecFloat.S754_finite s m e =>
      let magnitude := Z.shiftl (Z.pos m) e in
      Ret (if s then - magnitude else magnitude)
  end.

(** [while new_f_num >= 1024 and new_block < 7]. *)
Fixpoint raise_block (fuel : nat) (new_f_num new_block : Z) : py (Z * Z) :=
  match fuel with
  | O => Diverge
  | S fuel =>
    if (new_f_num >=? 1024) && (new_block <? 7) then
      raise_block fuel (new_f_num / 2) (new_block + 1)
    else Ret (new_f_num, new_block)
  end.

(** [while new_f_num < 512 and new_block > 0]. *)
Fixpoint lower_block (fuel : nat) (new_f_num new_block : Z) : py (Z * Z) :=
  match fuel with
  | O => Diverge
  | S fuel =>
    if (new_f_num <? 512) && (new_block >? 0) then
      lower_block fuel (new_f_num * 2) (new_block - 1)
    else Ret (new_f_num, new_block)
  end.

(** The function from the point where [multiplier] is known.  The block is
    three bits wide, so each loop runs at most seven times. *)
Definition shift_by (hex_a0 hex_b0 : Z) (multiplier : float) : py (Z * Z) :=
  let f_low := hex_a0 in
  let key_on := Z.land hex_b0 0x20 in
  let block := Z.shiftr (Z.land hex_b0 0x1C) 2 in
  let f_high := Z.land hex_b0 0x03 in
  let current_f_num := Z.lor (Z.shiftl f_high 8) f_low in
  new_f_num <- int_of_float (PrimFloat.mul (float_of_int current_f_num) multiplier) ;;
  let new_block := block in
  r <- raise_block 8 new_f_num new_block ;;
  let '(new_f_num, new_block) := r in
  r <- lower_block 8 new_f_num new_block ;;
  let '(new_f_num, new_block) := r in
  let new_f_low := Z.land new_f_num 0xFF in
  let new_f_high := Z.land (Z.shiftr new_f_num 8) 0x03 in
  let new_b0_val := Z.lor (Z.lor key_on (Z.shiftl new_block 2)) new_f_high in
  Ret (new_f_low, new_b0_val).

Section PitchShift.

(** Python's [x ** y] on floats is the C library's [pow]; the embedding
    takes it as given.  What is used of it is the rule of C99 (F.9.4.4)
    that [pow(x, 0)] is 1 for every [x]. *)
Variable pow : float -> float -> float.

(** The pair printed as the replacement bytes: (F-Low, Block). *)
Definition calc_shift (hex_a0 hex_b0 : Z) (semitones : float) : py (Z * Z) :=
  let multiplier := pow 2%float (PrimFloat.div semitones 12%float) in
  shift_by hex_a0 hex_b0 multiplier.

End PitchShift.

(** A function that agrees with [pow] at the exponents 0 and 1 (it
    returns [x] at every other exponent).  It is an instance of the rule
    above. *)
Definition pow_at_zero (x y : float) : float :=
  if PrimFloat.eqb y 0%float then 1%float else x.

(** ** The command stream as tokens

    The view of the stream that the specification takes: a sequence of
    two-byte tokens, each a delay or a register write. *)

Inductive StreamToken : Set :=
| Delay (code raw_value : Z)
| RegisterWrite (code value : Z).

Definition token_bytes (t : StreamToken) : list Z :=
  match t with
  | Delay code raw_value => [code; raw_value]
  | RegisterWrite code value => [code; value]
  end.

Fixpoint decode (short_delay_code long_delay_code : Z) (stream : list Z)
    : list StreamToken :=
  match stream with
  | code :: val :: rest =>
      (if (code =? short_delay_code) || (code =? long_delay_code)
       then Delay code val else RegisterWrite code val)
      :: decode short_delay_code long_delay_code rest
  | _ => []
  end.

(** The register a write token resolves to, if its index is in range. *)
Definition resolve (codemap : list Z) (t : StreamToken) : option Z :=
  match t with
  | Delay _ _ => None
  | RegisterWrite code _ =>
      if index_of code >=? Z.of_nat (length codemap) then None
      else nth_error codemap (Z.to_nat (index_of code))
  end.

(** The channel a write token is classified to, if it resolves. *)
Definition token_channel (codemap : list Z) (t : StreamToken) : option Z :=
  match t with
  | Delay _ _ => None
  | RegisterWrite code _ =>
      match resolve codemap t with
      | Some reg => Some (get_channel_from_reg (bank_of code) reg)
      | None => None
      end
  end.

(** The header fields of a buffer of at least 26 bytes. *)
Definition byte_at (data : list Z) (i : nat) : Z := nth i data 0.
Definition short_delay_of (data : list Z) : Z := byte_at data 23.
Definition long_delay_of (data : list Z) : Z := byte_at data 24.
Definition codemap_end (data : list Z) : nat := (26 + Z.to_nat (byte_at data 25))%nat.
Definition codemap_of (data : list Z) : list Z := slice data 26 (codemap_end data).
Definition header_of (data : list Z) : list Z := firstn (codemap_end data) data.
Definition stream_of (data : list Z) : list Z := skipn (codemap_end data) data.
Definition tokens_of (data : list Z) : list StreamToken :=
  decode (short_delay_of data) (long_delay_of data) (stream_of data).

(** A valid DRO v2 file: the magic tag, major version 2, the whole codemap
    present, and a command stream of whole two-byte tokens. *)
Definition valid_dro (data : list Z) : Prop :=
  firstn 8 data = magic /\
  byte_at data 8 + 256 * byte_at data 9 = 2 /\
  (codemap_end data <= length data)%nat /\
  Nat.Even (length data - codemap_end data).

(** The tokens Remove leaves out: the writes classified to the target. *)
Definition remove_drops (codemap : list Z) (target : Z) (t : StreamToken) : bool :=
  match token_channel codemap t with
  | Some ch => ch =? target
  | None => false
  end.

(** The tokens Isolate copies: delays, writes whose index is out of range,
    and the resolved writes to register 0xBD, to the target channel or to
    no channel. *)
Definition isolate_keeps (codemap : list Z) (target : Z) (t : StreamToken) : bool :=
  match t with
  | Delay _ _ => true
  | RegisterWrite code _ =>
      match resolve codemap t with
      | None => true
      | Some reg =>
          let ch := get_channel_from_reg (bank_of code) reg in
          (reg =? 0xBD) || (ch =? target) || (ch =? Global)
      end
  end.

(** What is copied and how many tokens are left out, for a policy [keeps]. *)
Definition filtered (keeps : StreamToken -> bool) (data : list Z) : list Z * nat :=
  (header_of data ++ flat_map token_bytes (filter keeps (tokens_of data)),
   length (filter (fun t => negb (keeps t)) (tokens_of data))).

(** A file whose header and codemap are complete; the command stream may
    still end in a lone byte. *)
Definition complete_header (data : list Z) : Prop :=
  firstn 8 data = magic /\
  byte_at data 8 + 256 * byte_at data 9 = 2 /\
  (codemap_end data <= length data)%nat.

(** ** Sample files *)

(** A small valid file: codemap [0xB0; 0x43; 0xBD], delay opcodes 0x7A and
    0x7B, and the stream: a write to 0xB0 (channel 0), a short delay, a
    write to 0x43 of bank 1 (channel 9), a write to 0xBD, a write with
    index 5 (out of range). *)
Definition sample_file : list Z :=
  magic ++ [2; 0; 0; 0] ++ [5; 0; 0; 0; 10; 0; 0; 0; 0; 0; 0]
  ++ [0x7A; 0x7B; 3] ++ [0xB0; 0x43; 0xBD]
  ++ [0x00; 0x30; 0x7A; 0x09; 0x81; 0x3F; 0x02; 0x20; 0x05; 0x11].

(** The file of the dump scenario: version 2.0, the two delay opcodes, the
    codemap [0xB0], the token (0x00, 0x30) and a token with the short-delay
    opcode and raw value 9.  [fields] are the eleven bytes at offsets 12 to
    22 (the two length fields, hardware, format and compression), which
    the dumper does not read. *)
Definition scenario_file (short_delay long_delay : Z) (fields : list Z) : list Z :=
  magic ++ [2; 0; 0; 0] ++ fields ++ [short_delay; long_delay; 1] ++ [0xB0]
  ++ [0x00; 0x30; short_delay; 9].

(** The same header with no codemap, followed by one lone byte. *)
Definition lone_byte_file : list Z :=
  magic ++ [2; 0; 0; 0] ++ repeat 0 11 ++ [0x7A; 0x7B; 0] ++ [0x05].

(** A 26-byte buffer whose header announces a codemap of five bytes. *)
Definition short_codemap_file : list Z :=
  magic ++ [2; 0; 0; 0] ++ repeat 0 11 ++ [0x7A; 0x7B; 5].

(** Case-insensitive search of a phrase in a description. *)
Definition lower (c : ascii) : ascii :=
  let n := nat_of_ascii c in
  if ((65 <=? n) && (n <=? 90))%nat then ascii_of_nat (n + 32) else c.

Fixpoint lowercase (s : string) : string :=
  match s with
  | EmptyString => EmptyString
  | String c s => String (lower c) (lowercase s)
  end.

Fixpoint contains (phrase s : string) : bool :=
  String.prefix phrase s
  || match s with
     | EmptyString => false
     | String _ s => contains phrase s
     end.

Definition mentions (phrase desc : string) : bool :=
  contains (lowercase phrase) (lowercase desc).

(** ** Pitch shift at zero semitones *)

Definition bytes256 : list Z := map Z.of_nat (seq 0 256).

(** The pair that [shift_by] returns is the pair it was given. *)
Definition unchanged (r : py (Z * Z)) (f_low combined : Z) : bool :=
  match r with
  | Ret (x, y) => (x =? f_low) && (y =? combined)
  | _ => false
  end.

(** The pair is already in the form the normalisation produces: bits 6
    and 7 of the combined byte are clear, and the 10-bit frequency number
    is at least 512 or the block is 0. *)
Definition canonical (f_low combined : Z) : bool :=
  (Z.land combined 0xC0 =? 0)
  && ((512 <=? Z.lor (Z.shiftl (Z.land combined 0x03) 8) f_low)
      || (Z.shiftr (Z.land combined 0x1C) 2 =? 0)).

(** ** Notions for the further properties *)

(** A token carries the tag that [decode] gives to its code byte. *)
Definition tagged (sd ld : Z) (t : StreamToken) : Prop :=
  match t with
  | Delay code _ => (code =? sd) || (code =? ld) = true
  | RegisterWrite code _ => (code =? sd) || (code =? ld) = false
  end.

(** The bytes a filter with policy [keeps] writes for a valid file. *)
Definition rewritten (keeps : StreamToken -> bool) (data : list Z) : list Z :=
  fst (filtered keeps data).

(** The rows the dumper prints for a command stream that starts at byte
    [offset] with accumulated time [time_accum], token by token. *)
Fixpoint stream_rows (codemap : list Z) (sd ld : Z) (offset : nat)
    (time_accum : Z) (stream : list Z) : list line :=
  match stream with
  | code :: val :: rest =>
      if code =? sd then
        stream_rows codemap sd ld (S (S offset)) (time_accum + (val + 1)) rest
      else if code =? ld then
        stream_rows codemap sd ld (S (S offset)) (time_accum + (val + 1) * 256) rest
      else
        match resolve codemap (RegisterWrite code val) with
        | None =>
            [BadIndexRow offset time_accum (bank_of code) (index_of code) val
               ("ERROR: Index " ++ dec (index_of code) ++ " out of bounds")%string]
        | Some reg =>
            if is_empty (describe reg val) then []
            else [Row offset time_accum (bank_of code) reg val (describe reg val)]
        end
        ++ stream_rows codemap sd ld (S (S offset)) time_accum rest
  | _ => []
  end.

(** The time the delays of a command stream add up to. *)
Fixpoint stream_time (sd ld : Z) (stream : list Z) : Z :=
  match stream with
  | code :: val :: rest =>
      (if code =? sd then val + 1
       else if code =? ld then (val + 1) * 256
       else 0)
      + stream_time sd ld rest
  | _ => 0
  end.

(** The three lines printed before the rows. *)
Definition heading (data : list Z) : list line :=
  [Text (header_info (short_delay_of data) (long_delay_of data) (byte_at data 25));
   Text table_header; Text (repeat_char "-" 70)].

(** A printed line without its offset column. *)
Definition unplaced (l : line) : line :=
  match l with
  | Text s => Text s
  | Row _ time_accum bank reg val desc => Row 0 time_accum bank reg val desc
  | BadIndexRow _ time_accum bank idx val desc =>
      BadIndexRow 0 time_accum bank idx val desc
  end.

(** The rows of a dump that are not rows of channel [target]. *)
Definition row_survives_remove (target : Z) (l : line) : bool :=
  match l with
  | Row _ _ bank reg _ _ => negb (get_channel_from_reg bank reg =? target)
  | _ => true
  end.

(** The rows of a dump that Isolate of channel [target] leaves in. *)
Definition row_survives_isolate (target : Z) (l : line) : bool :=
  match l with
  | Row _ _ bank reg _ _ =>
      (reg =? 0xBD) || (get_channel_from_reg bank reg =? target)
      || (get_channel_from_reg bank reg =? Global)
  | _ => true
  end.

(** The frequency number and the block held by a register pair, as the
    calculator reads them. *)
Definition f_num_of (f_low combined : Z) : Z :=
  Z.lor (Z.shiftl (Z.land combined 0x03) 8) f_low.
Definition block_of (combined : Z) : Z := Z.shiftr (Z.land combined 0x1C) 2.

(** A function that agrees with [pow] at the exponents 0, 1 and -1 (it
    returns [x] at every other exponent). *)
Definition pow_unit_exponents (x y : float) : float :=
  if PrimFloat.eqb y 0%float then 1%float
  else if PrimFloat.eqb y (-1)%float then PrimFloat.div 1%float x
  else x.

(** The checks that are run over all pairs of bytes. *)
Definition zero_shift_check (f_low combined : Z) : bool :=
  match shift_by f_low combined 1%float with
  | Ret (lo, b0) =>
      (f_num_of lo b0 * 2 ^ block_of b0 =? f_num_of f_low combined * 2 ^ block_of combined)
      && (Z.land b0 0x20 =? Z.land combined 0x20)
      && canonical lo b0
      && unchanged (shift_by lo b0 1%float) lo b0
  | _ => false
  end.

Definition octave_up_check (f_low combined : Z) : bool :=
  let f := f_num_of f_low combined in
  let blk := block_of combined in
  match shift_by f_low combined 2%float with
  | Ret (lo, b0) =>
      implb ((Z.land combined 0xC0 =? 0) && (512 <=? f) && (blk <? 7))
            ((lo =? f_low) && (b0 =? combined + 4))
      && implb ((512 <=? f) && (blk =? 7))
               ((f_num_of lo b0 =? 2 * f - 1024) && (block_of b0 =? 7))
  | _ => false
  end.

Definition octave_down_check (f_low combined : Z) : bool :=
  let f := f_num_of f_low combined in
  let blk := block_of combined in
  match shift_by f_low combined 0.5%float with
  | Ret (lo, b0) =>
      implb ((Z.land combined 0xC0 =? 0) && (512 <=? f) && (blk >? 0))
            ((lo =? Z.land f_low 0xFE) && (b0 =? combined - 4))
  | _ => false
  end.

(** * Properties *)

(** ** The classifier *)

Lemma between_spec lo x hi : between lo x hi = true <-> lo <= x <= hi.
Proof. unfold between. rewrite andb_true_iff, !Z.leb_le. tauto. Qed.

Lemma is_channel_reg_spec reg : is_channel_reg reg = true <-> channel_range reg.
Proof.
  unfold is_channel_reg, channel_range.
  rewrite !orb_true_iff, !between_spec. tauto.
Qed.

Lemma is_operator_reg_spec reg :
  is_operator_reg reg = true <-> operator_range reg.
Proof.
  unfold is_operator_reg, operator_range.
  rewrite !orb_true_iff, !between_spec. tauto.
Qed.

Lemma operator_not_channel reg : operator_range reg -> is_channel_reg reg = false.
Proof.
  intros H. destruct (is_channel_reg reg) eqn:E; [|reflexivity].
  apply is_channel_reg_spec in E. unfold operator_range, channel_range in *. lia.
Qed.

Lemma operator_offset reg : operator_range reg -> 0 <= reg mod 0x20 <= 0x15.
Proof.
  unfold operator_range. intros H.
  Z.to_euclidean_division_equations. lia.
Qed.

Lemma land_low_nibble reg : Z.land reg 0x0F = reg mod 16.
Proof. change 0x0F with (Z.ones 4). now rewrite Z.land_ones by lia. Qed.

Lemma channel_nibble reg : channel_range reg -> 0 <= Z.land reg 0x0F <= 8.
Proof.
  rewrite land_low_nibble. unfold channel_range. intros H.
  Z.to_euclidean_division_equations. lia.
Qed.

(** Every entry of the operator table is the invalid mark or a channel
    number relative to the bank, 0 to 8. *)
Lemma op_ch_map_entries n v :
  nth_error op_ch_map n = Some v -> v = -1 \/ 0 <= v <= 8.
Proof.
  intros H. apply nth_error_In in H. unfold op_ch_map in H. simpl in H.
  repeat (destruct H as [<- | H]; [lia|]). contradiction.
Qed.

(** The classifier on an operator register, reduced to the table lookup. *)
Lemma operator_lookup bank reg :
  operator_range reg ->
  exists v, nth_error op_ch_map (Z.to_nat (reg mod 0x20)) = Some v /\
    get_channel_from_reg bank reg = if v =? -1 then Global else base_ch bank + v.
Proof.
  intros H. unfold get_channel_from_reg.
  rewrite (operator_not_channel _ H).
  rewrite (proj2 (is_operator_reg_spec reg) H).
  pose proof (operator_offset _ H) as Hoff. cbv zeta.
  destruct (reg mod 0x20 >? 0x15) eqn:E1; [rewrite Z.gtb_gt in E1; lia|].
  destruct (reg mod 0x20 <? Z.of_nat (length op_ch_map)) eqn:E2;
    [|rewrite Z.ltb_ge in E2; simpl in E2; lia].
  destruct (nth_error op_ch_map (Z.to_nat (reg mod 0x20))) as [v|] eqn:E3.
  - exists v. split; [reflexivity|]. now destruct (v =? -1).
  - apply nth_error_None in E3. simpl in E3. lia.
Qed.

Lemma classify_other reg :
  is_channel_reg reg = false -> is_operator_reg reg = false ->
  forall bank, get_channel_from_reg bank reg = Global.
Proof. intros H1 H2 bank. unfold get_channel_from_reg. now rewrite H1, H2. Qed.

(** C1: on the five operator ranges the classifier is the lookup at
    [reg mod 0x20] in the 22-entry table
    0,1,2,0,1,2,invalid,invalid,3,4,5,3,4,5,invalid,invalid,6,7,8,6,7,8,
    written out in the statement with [None] for an invalid entry.  A
    valid entry [v] gives channel [0 + v] in bank 0 and [9 + v] in bank 1;
    an invalid entry gives Global; the invalid entries are those at the
    offsets 0x06, 0x07, 0x0E and 0x0F. *)
Theorem operator_table_lookup (bank reg : Z) :
  bank = 0 \/ bank = 1 ->
  operator_range reg ->
  let offset := reg mod 0x20 in
  let table :=
    [Some 0; Some 1; Some 2; Some 0; Some 1; Some 2; None; None;
     Some 3; Some 4; Some 5; Some 3; Some 4; Some 5; None; None;
     Some 6; Some 7; Some 8; Some 6; Some 7; Some 8] in
  exists entry, nth_error table (Z.to_nat offset) = Some entry /\
    match entry with
    | Some v =>
        (bank = 0 -> get_channel_from_reg bank reg = 0 + v) /\
        (bank = 1 -> get_channel_from_reg bank reg = 9 + v)
    | None => get_channel_from_reg bank reg = Global
    end /\
    (entry = None <->
     offset = 0x06 \/ offset = 0x07 \/ offset = 0x0E \/ offset = 0x0F).
Proof.
  intros _ Hreg offset table.
  destruct (operator_lookup bank reg Hreg) as (v & Hv & Hch).
  fold offset in Hv.
  pose proof (operator_offset _ Hreg) as Hoff. fold offset in Hoff.
  assert (Hn : (Z.to_nat offset < 22)%nat) by lia.
  assert (Ho : offset = Z.of_nat (Z.to_nat offset)) by lia.
  remember (Z.to_nat offset) as n eqn:En. clear En.
  do 22 (destruct n as [|n];
         [simpl in Hv; injection Hv as <-;
          eexists; split; [reflexivity|]; rewrite Hch;
          split;
            [first [reflexivity
                   | split; intros ->; reflexivity]
            | split; intros H; first [discriminate | reflexivity | lia]]|]).
  lia.
Qed.

Lemma operator_table_lookup_witness :
  (1 = 0 \/ 1 = 1) /\ operator_range 0xF5 /\ get_channel_from_reg 1 0xF5 = 17.
Proof.
  assert (Hb : 1 = 0 \/ 1 = 1) by (right; reflexivity).
  assert (Hr : operator_range 0xF5) by (unfold operator_range; lia).
  split; [exact Hb|]. split; [exact Hr|].
  destruct (operator_table_lookup 1 0xF5 Hb Hr) as (entry & Hentry & Hres & _).
  cbv in Hentry. injection Hentry as <-.
  destruct Hres as [_ H1]. rewrite (H1 eq_refl). reflexivity.
Defined.

(** C2: on the per-channel ranges 0xA0-0xA8, 0xB0-0xB8 and 0xC0-0xC8 the
    classifier returns the bank's base (0 or 9) plus the low nibble of the
    register. *)
Theorem channel_register_nibble (bank reg : Z) :
  bank = 0 \/ bank = 1 ->
  channel_range reg ->
  get_channel_from_reg bank reg = base_ch bank + Z.land reg 0x0F /\
  base_ch 0 = 0 /\ base_ch 1 = 9.
Proof.
  intros _ Hreg. split; [|split; reflexivity].
  unfold get_channel_from_reg.
  now rewrite (proj2 (is_channel_reg_spec reg) Hreg).
Qed.

Lemma channel_register_nibble_witness :
  (1 = 0 \/ 1 = 1) /\ channel_range 0xB3 /\ get_channel_from_reg 1 0xB3 = 12.
Proof.
  assert (Hb : 1 = 0 \/ 1 = 1) by (right; reflexivity).
  assert (Hr : channel_range 0xB3) by (unfold channel_range; lia).
  split; [exact Hb|]. split; [exact Hr|].
  rewrite (proj1 (channel_register_nibble 1 0xB3 Hb Hr)). reflexivity.
Defined.

(** C10: for both banks and every register the classifier returns Global
    or a channel from 0 to 17: from 0 to 8 for bank 0 and from 9 to 17 for
    bank 1. *)
Theorem classifier_bounds (bank reg : Z) :
  bank = 0 \/ bank = 1 ->
  let ch := get_channel_from_reg bank reg in
  (ch = Global \/ 0 <= ch <= 17) /\
  (bank = 0 -> ch = Global \/ 0 <= ch <= 8) /\
  (bank = 1 -> ch = Global \/ 9 <= ch <= 17).
Proof.
  intros Hbank ch.
  assert (Hbase : ch = Global \/ base_ch bank <= ch <= base_ch bank + 8).
  { subst ch. destruct (is_channel_reg reg) eqn:E1.
    - right. apply is_channel_reg_spec in E1.
      pose proof (channel_nibble _ E1).
      unfold get_channel_from_reg.
      rewrite (proj2 (is_channel_reg_spec reg) E1). lia.
    - destruct (is_operator_reg reg) eqn:E2.
      + apply is_operator_reg_spec in E2.
        destruct (operator_lookup bank reg E2) as (v & Hv & ->).
        destruct (op_ch_map_entries _ _ Hv) as [-> | Hr]; [now left|].
        destruct (v =? -1); [now left | right; lia].
      + left. now apply classify_other. }
  destruct Hbank as [-> | ->]; change (base_ch 0) with 0 in *;
    change (base_ch 1) with 9 in *; repeat split; intros; try lia.
Qed.

Lemma classifier_bounds_witness :
  (1 = 0 \/ 1 = 1) /\
  (get_channel_from_reg 1 0xF5 = Global \/ 0 <= get_channel_from_reg 1 0xF5 <= 17).
Proof.
  assert (Hb : 1 = 0 \/ 1 = 1) by (right; reflexivity).
  split; [exact Hb|]. exact (proj1 (classifier_bounds 1 0xF5 Hb)).
Defined.

(** ** Buffers *)

Lemma skipn_cons (l : list Z) : forall i a rest,
  skipn i l = a :: rest ->
  nth_error l i = Some a /\ skipn (S i) l = rest /\ (i < length l)%nat.
Proof.
  induction l as [|x l IH]; intros i a rest H.
  - destruct i; discriminate.
  - destruct i as [|i].
    + simpl in H. injection H as -> ->. simpl. repeat split. lia.
    + simpl in H. destruct (IH _ _ _ H) as (H1 & H2 & H3).
      simpl. repeat split; [assumption..|lia].
Qed.

Lemma skipn_nil_length (l : list Z) i : skipn i l = [] -> (length l <= i)%nat.
Proof.
  intros H. pose proof (length_skipn i l) as E. rewrite H in E. simpl in E. lia.
Qed.

Lemma skipn_nth (l : list Z) i :
  (i < length l)%nat -> skipn i l = nth i l 0 :: skipn (S i) l.
Proof.
  revert i. induction l as [|x l IH]; intros i H; simpl in H; [lia|].
  destruct i as [|i]; [reflexivity|]. simpl. apply IH. lia.
Qed.

Lemma index_in_range (l : list Z) i :
  (i < length l)%nat -> index l i = Ret (nth i l 0).
Proof.
  intros H. unfold index. now rewrite (nth_error_nth' l 0 H).
Qed.

Lemma index_some (l : list Z) i a : nth_error l i = Some a -> index l i = Ret a.
Proof. intros H. unfold index. now rewrite H. Qed.

Lemma index_out_of_range (l : list Z) i :
  (length l <= i)%nat -> index l i = Raise IndexError.
Proof.
  intros H. unfold index. now rewrite (proj2 (nth_error_None l i) H).
Qed.

Lemma bytes_eqb_eq l1 l2 : bytes_eqb l1 l2 = true <-> l1 = l2.
Proof.
  revert l2. induction l1 as [|x l1 IH]; intros [|y l2]; simpl;
    try (split; [discriminate | discriminate]); [tauto|].
  rewrite andb_true_iff, Z.eqb_eq, IH. split.
  - intros [-> ->]. reflexivity.
  - intros E. injection E as -> ->. auto.
Qed.

Lemma filter_none (A : Type) (f : A -> bool) (l : list A) :
  (forall x, In x l -> f x = false) -> filter f l = [].
Proof.
  induction l as [|x l IH]; intros H; [reflexivity|].
  cbn [filter]. rewrite (H x) by (left; reflexivity).
  apply IH. intros y Hy. apply H. now right.
Qed.

(** Induction on a stream two bytes at a time. *)
Lemma pair_ind (P : list Z -> Prop) :
  P [] -> (forall a, P [a]) -> (forall a b s, P s -> P (a :: b :: s)) ->
  forall s, P s.
Proof.
  intros H0 H1 H2 s.
  assert (H : P s /\ forall a, P (a :: s)); [|exact (proj1 H)].
  induction s as [|b s [IH1 IH2]]; split; auto.
Qed.

Lemma decode_bytes sd ld : forall s,
  Nat.even (length s) = true -> flat_map token_bytes (decode sd ld s) = s.
Proof.
  induction s as [| a | a b s IH] using pair_ind; intros H.
  - reflexivity.
  - discriminate.
  - cbn [decode flat_map]. rewrite (IH H).
    now destruct ((a =? sd) || (a =? ld)).
Qed.

(** ** The header of a valid file *)

Lemma slice_from_start (l : list Z) n : slice l 0 n = firstn n l.
Proof. unfold slice. now rewrite Nat.sub_0_r. Qed.

Lemma slice_two (l : list Z) i :
  (S i < length l)%nat -> slice l i (S (S i)) = [nth i l 0; nth (S i) l 0].
Proof.
  intros H. unfold slice.
  replace (S (S i) - i)%nat with 2%nat by lia.
  rewrite (skipn_nth l i) by lia. rewrite (skipn_nth l (S i)) by lia.
  reflexivity.
Qed.

(** What the three commands share: on a buffer of at least 26 bytes with
    the magic tag and major version 2 the header checks pass and the
    fields are read. *)
Section Header.

Variable data : list Z.
Hypothesis Hmagic : firstn 8 data = magic.
Hypothesis Hmajor : byte_at data 8 + 256 * byte_at data 9 = 2.
Hypothesis Hlen : (26 <= length data)%nat.

Lemma magic_accepted : negb (bytes_eqb (slice data 0 8) magic) = false.
Proof.
  rewrite slice_from_start, Hmagic.
  now rewrite (proj2 (bytes_eqb_eq magic magic) eq_refl).
Qed.

Lemma remove_channel_loop target :
  remove_channel data target =
  (r <- remove_loop (S (length data)) data (codemap_of data)
         (short_delay_of data) (long_delay_of data) target
         (codemap_end data) (header_of data) 0 ;;
   Ret (Done r)).
Proof.
  unfold remove_channel. rewrite magic_accepted.
  rewrite (slice_two data 8) by lia. cbn [unpack_H bind].
  fold (byte_at data 8) (byte_at data 9). rewrite Hmajor. cbn [Z.eqb Pos.eqb negb].
  rewrite !index_in_range by lia. cbn [bind].
  rewrite slice_from_start. reflexivity.
Qed.

Lemma isolate_channel_loop target :
  isolate_channel data target =
  (r <- isolate_loop (S (length data)) data (codemap_of data)
         (short_delay_of data) (long_delay_of data) target
         (codemap_end data) (header_of data) 0 ;;
   Ret (Done r)).
Proof.
  unfold isolate_channel. rewrite magic_accepted.
  rewrite (slice_two data 8) by lia. cbn [unpack_H bind].
  fold (byte_at data 8) (byte_at data 9). rewrite Hmajor. cbn [Z.eqb Pos.eqb negb].
  rewrite !index_in_range by lia. cbn [bind].
  rewrite slice_from_start. reflexivity.
Qed.

End Header.

(** ** The filter loops, token by token *)

(** The loop test at the end of the buffer, and the read of one byte (with
    the loop test before it, when the byte starts a token). *)
Ltac at_end H :=
  apply skipn_nil_length in H;
  match goal with
  | |- context [(?i <? ?n)%nat] =>
      replace (i <? n)%nat with false by (symmetry; apply Nat.ltb_ge; lia)
  end.

Ltac read_byte H a :=
  let Ha := fresh "Hcode" in
  let Hi := fresh "Hi" in
  apply skipn_cons in H; destruct H as (Ha & H & Hi);
  try match goal with
  | |- context [(?i <? ?n)%nat] =>
      replace (i <? n)%nat with true by (symmetry; apply Nat.ltb_lt; lia)
  end;
  rewrite (index_some _ _ _ Ha); cbn [bind].

Lemma resolve_in_range codemap code val :
  (index_of code >=? Z.of_nat (length codemap)) = false ->
  exists reg, index codemap (Z.to_nat (index_of code)) = Ret reg /\
              resolve codemap (RegisterWrite code val) = Some reg.
Proof.
  intros E. unfold resolve. rewrite E.
  assert (H0 : 0 <= index_of code) by (apply Z.land_nonneg; right; lia).
  rewrite Z.geb_leb, Z.leb_gt in E.
  destruct (nth_error codemap (Z.to_nat (index_of code))) as [reg|] eqn:En.
  - exists reg. unfold index. now rewrite En.
  - apply nth_error_None in En. lia.
Qed.

Lemma resolve_out_of_range codemap code val :
  (index_of code >=? Z.of_nat (length codemap)) = true ->
  resolve codemap (RegisterWrite code val) = None.
Proof. intros E. unfold resolve. now rewrite E. Qed.

Lemma remove_drops_unresolved codemap target code val :
  resolve codemap (RegisterWrite code val) = None ->
  remove_drops codemap target (RegisterWrite code val) = false.
Proof. intros H. unfold remove_drops, token_channel. now rewrite H. Qed.

Lemma remove_drops_resolved codemap target code val reg :
  resolve codemap (RegisterWrite code val) = Some reg ->
  remove_drops codemap target (RegisterWrite code val) =
  (get_channel_from_reg (bank_of code) reg =? target).
Proof. intros H. unfold remove_drops, token_channel. now rewrite H. Qed.

Lemma isolate_keeps_unresolved codemap target code val :
  resolve codemap (RegisterWrite code val) = None ->
  isolate_keeps codemap target (RegisterWrite code val) = true.
Proof. intros H. unfold isolate_keeps. now rewrite H. Qed.

Lemma isolate_keeps_resolved codemap target code val reg :
  resolve codemap (RegisterWrite code val) = Some reg ->
  isolate_keeps codemap target (RegisterWrite code val) =
  ((reg =? 0xBD) || (get_channel_from_reg (bank_of code) reg =? target)
   || (get_channel_from_reg (bank_of code) reg =? -1)).
Proof. intros H. unfold isolate_keeps. now rewrite H. Qed.

Section Loops.

Variables (data codemap : list Z) (sd ld target : Z).

Lemma remove_loop_stream : forall s i out n fuel,
  skipn i data = s -> (length s < fuel)%nat ->
  remove_loop fuel data codemap sd ld target i out n =
  if Nat.even (length s) then
    Ret (out ++ flat_map token_bytes
                  (filter (fun t => negb (remove_drops codemap target t)) (decode sd ld s)),
         (n + length (filter (remove_drops codemap target) (decode sd ld s)))%nat)
  else Raise IndexError.
Proof.
  induction s as [| a | a b s IH] using pair_ind;
    intros i out n [|fuel] Hs Hfuel; try (simpl in Hfuel; lia);
    cbn [remove_loop].
  - at_end Hs. cbn. now rewrite app_nil_r, Nat.add_0_r.
  - read_byte Hs a. apply skipn_nil_length in Hs.
    rewrite (index_out_of_range data (S i)) by lia.
    now destruct ((a =? sd) || (a =? ld)).
  - read_byte Hs a. read_byte Hs b.
    assert (Hf : (length s < fuel)%nat) by (simpl in Hfuel; lia).
    change (Nat.even (length (a :: b :: s))) with (Nat.even (length s)).
    cbn [decode].
    destruct ((a =? sd) || (a =? ld)) eqn:Edelay.
    + rewrite (IH _ _ _ _ Hs Hf). destruct (Nat.even (length s)); [|reflexivity].
      cbn. now rewrite <- app_assoc.
    + destruct (index_of a >=? Z.of_nat (length codemap)) eqn:Eidx.
      * rewrite (IH _ _ _ _ Hs Hf). destruct (Nat.even (length s)); [|reflexivity].
        cbn [filter].
        rewrite (remove_drops_unresolved _ target _ _ (resolve_out_of_range _ _ b Eidx)).
        cbn. now rewrite <- app_assoc.
      * destruct (resolve_in_range codemap a b Eidx) as (reg & -> & Hres).
        cbn [bind filter]. rewrite (remove_drops_resolved _ target _ _ _ Hres).
        destruct (get_channel_from_reg (bank_of a) reg =? target);
          rewrite (IH _ _ _ _ Hs Hf); (destruct (Nat.even (length s)); [|reflexivity]);
          cbn; [now rewrite Nat.add_succ_r | now rewrite <- app_assoc].
Qed.

Lemma isolate_loop_stream : forall s i out n fuel,
  skipn i data = s -> (length s < fuel)%nat ->
  isolate_loop fuel data codemap sd ld target i out n =
  if Nat.even (length s) then
    Ret (out ++ flat_map token_bytes (filter (isolate_keeps codemap target) (decode sd ld s)),
         (n + length (filter (fun t => negb (isolate_keeps codemap target t))
                        (decode sd ld s)))%nat)
  else Raise IndexError.
Proof.
  induction s as [| a | a b s IH] using pair_ind;
    intros i out n [|fuel] Hs Hfuel; try (simpl in Hfuel; lia);
    cbn [isolate_loop].
  - at_end Hs. cbn. now rewrite app_nil_r, Nat.add_0_r.
  - read_byte Hs a. apply skipn_nil_length in Hs.
    rewrite (index_out_of_range data (S i)) by lia.
    now destruct ((a =? sd) || (a =? ld)).
  - read_byte Hs a. read_byte Hs b.
    assert (Hf : (length s < fuel)%nat) by (simpl in Hfuel; lia).
    change (Nat.even (length (a :: b :: s))) with (Nat.even (length s)).
    cbn [decode].
    destruct ((a =? sd) || (a =? ld)) eqn:Edelay.
    + rewrite (IH _ _ _ _ Hs Hf). destruct (Nat.even (length s)); [|reflexivity].
      cbn. now rewrite <- app_assoc.
    + destruct (index_of a >=? Z.of_nat (length codemap)) eqn:Eidx.
      * rewrite (IH _ _ _ _ Hs Hf). destruct (Nat.even (length s)); [|reflexivity].
        cbn [filter].
        rewrite (isolate_keeps_unresolved _ target _ _ (resolve_out_of_range _ _ b Eidx)).
        cbn. now rewrite <- app_assoc.
      * destruct (resolve_in_range codemap a b Eidx) as (reg & -> & Hres).
        cbn [bind filter]. rewrite (isolate_keeps_resolved _ target _ _ _ Hres).
        destruct (reg =? 0xBD); cbn [orb];
          [|destruct ((get_channel_from_reg (bank_of a) reg =? target)
                      || (get_channel_from_reg (bank_of a) reg =? -1))];
          rewrite (IH _ _ _ _ Hs Hf); (destruct (Nat.even (length s)); [|reflexivity]);
          cbn; first [now rewrite <- app_assoc | now rewrite Nat.add_succ_r].
Qed.

End Loops.

(** ** Remove and Isolate on whole files *)

Lemma valid_complete data : valid_dro data -> complete_header data.
Proof. unfold valid_dro, complete_header. tauto. Qed.

Lemma complete_header_length data : complete_header data -> (26 <= length data)%nat.
Proof. unfold complete_header, codemap_end. lia. Qed.

Lemma stream_fuel data : (length (stream_of data) < S (length data))%nat.
Proof. unfold stream_of. rewrite length_skipn. lia. Qed.

Lemma valid_stream_even data :
  valid_dro data -> Nat.even (length (stream_of data)) = true.
Proof.
  intros (_ & _ & _ & H). unfold stream_of. rewrite length_skipn.
  now apply Nat.even_spec.
Qed.

Lemma remove_channel_valid data target :
  valid_dro data ->
  remove_channel data target =
  Ret (Done (header_of data ++
             flat_map token_bytes
               (filter (fun t => negb (remove_drops (codemap_of data) target t))
                  (tokens_of data)),
             length (filter (remove_drops (codemap_of data) target) (tokens_of data)))).
Proof.
  intros Hv. pose proof (valid_complete _ Hv) as Hc.
  pose proof (complete_header_length _ Hc) as Hlen.
  destruct Hc as (Hm & Hmaj & _).
  rewrite (remove_channel_loop data Hm Hmaj Hlen).
  rewrite (remove_loop_stream data _ _ _ target (stream_of data) _ _ _ _
             eq_refl (stream_fuel data)).
  rewrite (valid_stream_even _ Hv). reflexivity.
Qed.

Lemma isolate_channel_valid data target :
  valid_dro data ->
  isolate_channel data target =
  Ret (Done (filtered (isolate_keeps (codemap_of data) target) data)).
Proof.
  intros Hv. pose proof (valid_complete _ Hv) as Hc.
  pose proof (complete_header_length _ Hc) as Hlen.
  destruct Hc as (Hm & Hmaj & _).
  rewrite (isolate_channel_loop data Hm Hmaj Hlen).
  rewrite (isolate_loop_stream data _ _ _ target (stream_of data) _ _ _ _
             eq_refl (stream_fuel data)).
  rewrite (valid_stream_even _ Hv). reflexivity.
Qed.

(** A command stream of odd length ends in a lone byte: both filters read
    past the end of the buffer there. *)
Lemma filters_raise_on_lone_byte data target :
  complete_header data ->
  Nat.even (length (stream_of data)) = false ->
  remove_channel data target = Raise IndexError /\
  isolate_channel data target = Raise IndexError.
Proof.
  intros Hc Hodd. pose proof (complete_header_length _ Hc) as Hlen.
  destruct Hc as (Hm & Hmaj & _). split.
  - rewrite (remove_channel_loop data Hm Hmaj Hlen).
    rewrite (remove_loop_stream data _ _ _ target (stream_of data) _ _ _ _
               eq_refl (stream_fuel data)).
    now rewrite Hodd.
  - rewrite (isolate_channel_loop data Hm Hmaj Hlen).
    rewrite (isolate_loop_stream data _ _ _ target (stream_of data) _ _ _ _
               eq_refl (stream_fuel data)).
    now rewrite Hodd.
Qed.

Lemma sample_file_valid : valid_dro sample_file.
Proof.
  unfold valid_dro. repeat split; try reflexivity.
  - vm_compute. lia.
  - exists 5%nat. reflexivity.
Defined.

(** C3: on a valid file Remove(C) copies the header and codemap, copies
    every delay token and every write whose index is outside the codemap,
    and leaves out exactly the writes whose resolved register is
    classified to C; the count it reports is the number of those writes. *)
Theorem remove_complementarity (data : list Z) (C : Z) :
  valid_dro data ->
  let codemap := codemap_of data in
  let drops := remove_drops codemap C in
  remove_channel data C =
    Ret (Done (header_of data ++
               flat_map token_bytes
                 (filter (fun t => negb (drops t)) (tokens_of data)),
               length (filter drops (tokens_of data)))) /\
  (forall code v, drops (Delay code v) = false) /\
  (forall code v, index_of code >= Z.of_nat (length codemap) ->
     drops (RegisterWrite code v) = false) /\
  (forall code v, index_of code < Z.of_nat (length codemap) ->
     exists reg, nth_error codemap (Z.to_nat (index_of code)) = Some reg /\
       (drops (RegisterWrite code v) = true <->
        get_channel_from_reg (bank_of code) reg = C)).
Proof.
  intros Hv codemap drops. split; [exact (remove_channel_valid data C Hv)|].
  split; [reflexivity|]. split.
  - intros code v H. apply remove_drops_unresolved, resolve_out_of_range.
    rewrite Z.geb_leb. apply Z.leb_le. lia.
  - intros code v H.
    assert (E : (index_of code >=? Z.of_nat (length codemap)) = false)
      by (rewrite Z.geb_leb; apply Z.leb_gt; lia).
    destruct (resolve_in_range codemap code v E) as (reg & _ & Hres).
    exists reg. split.
    + unfold resolve in Hres. now rewrite E in Hres.
    + unfold drops. rewrite (remove_drops_resolved _ C _ _ _ Hres).
      apply Z.eqb_eq.
Qed.

Lemma remove_complementarity_witness :
  valid_dro sample_file /\
  remove_channel sample_file 0 =
    Ret (Done (firstn 29 sample_file
               ++ [0x7A; 0x09; 0x81; 0x3F; 0x02; 0x20; 0x05; 0x11], 1%nat)).
Proof.
  split; [exact sample_file_valid|].
  rewrite (proj1 (remove_complementarity sample_file 0 sample_file_valid)).
  reflexivity.
Defined.

(** C4: register 0xBD is Global in both banks.  On a valid file
    Isolate(C) copies every write that resolves to 0xBD, whatever C is,
    and copies a resolved write exactly when its register is 0xBD, its
    channel is C or its channel is Global; the other resolved writes are
    left out and counted. *)
Theorem isolate_policy (data : list Z) (C : Z) :
  valid_dro data ->
  let codemap := codemap_of data in
  let keeps := isolate_keeps codemap C in
  (forall bank, get_channel_from_reg bank 0xBD = Global) /\
  isolate_channel data C =
    Ret (Done (header_of data ++
               flat_map token_bytes (filter keeps (tokens_of data)),
               length (filter (fun t => negb (keeps t)) (tokens_of data)))) /\
  (forall code v, resolve codemap (RegisterWrite code v) = Some 0xBD ->
     keeps (RegisterWrite code v) = true) /\
  (forall code v reg, resolve codemap (RegisterWrite code v) = Some reg ->
     (keeps (RegisterWrite code v) = true <->
      reg = 0xBD \/ get_channel_from_reg (bank_of code) reg = C
      \/ get_channel_from_reg (bank_of code) reg = Global)).
Proof.
  intros Hv codemap keeps. split; [reflexivity|].
  split; [exact (isolate_channel_valid data C Hv)|]. split.
  - intros code v H. unfold keeps.
    now rewrite (isolate_keeps_resolved _ C _ _ _ H).
  - intros code v reg H. unfold keeps.
    rewrite (isolate_keeps_resolved _ C _ _ _ H).
    rewrite !orb_true_iff, !Z.eqb_eq. unfold Global. tauto.
Qed.

Lemma isolate_policy_witness :
  valid_dro sample_file /\
  isolate_channel sample_file 0 =
    Ret (Done (firstn 29 sample_file
               ++ [0x00; 0x30; 0x7A; 0x09; 0x02; 0x20; 0x05; 0x11], 1%nat)).
Proof.
  split; [exact sample_file_valid|].
  destruct (isolate_policy sample_file 0 sample_file_valid) as (_ & -> & _).
  reflexivity.
Defined.

(** C6: when no write token of a valid file is classified to C, the bytes
    Remove(C) writes are the input, and nothing is counted as dropped. *)
Theorem remove_absent_channel_identity (data : list Z) (C : Z) :
  valid_dro data ->
  (forall t, In t (tokens_of data) -> token_channel (codemap_of data) t <> Some C) ->
  remove_channel data C = Ret (Done (data, 0%nat)).
Proof.
  intros Hv Hnone. rewrite (remove_channel_valid data C Hv).
  assert (Hd : forall t, In t (tokens_of data) ->
                 remove_drops (codemap_of data) C t = false).
  { intros t Hin. specialize (Hnone t Hin). unfold remove_drops.
    destruct (token_channel (codemap_of data) t) as [ch|]; [|reflexivity].
    apply Z.eqb_neq. congruence. }
  assert (Hkeep : filter (fun t => negb (remove_drops (codemap_of data) C t))
                    (tokens_of data) = tokens_of data).
  { apply forallb_filter_id, forallb_forall. intros t Hin. now rewrite Hd. }
  assert (Hdrop : filter (remove_drops (codemap_of data) C) (tokens_of data) = [])
    by (apply filter_none, Hd).
  rewrite Hkeep, Hdrop. unfold tokens_of.
  rewrite (decode_bytes _ _ _ (valid_stream_even _ Hv)).
  unfold header_of, stream_of. now rewrite firstn_skipn.
Qed.

Lemma remove_absent_channel_identity_witness :
  valid_dro sample_file /\ remove_channel sample_file 4 = Ret (Done (sample_file, 0%nat)).
Proof.
  split; [exact sample_file_valid|].
  apply (remove_absent_channel_identity sample_file 4 sample_file_valid).
  intros t Hin. vm_compute in Hin.
  repeat (destruct Hin as [<- | Hin]; [vm_compute; discriminate|]).
  contradiction.
Defined.

(** ** The dumper *)

Section DumpLoop.

Variables (data codemap : list Z) (sd ld : Z).

Lemma dump_loop_end fuel i t printed :
  (length data <= i)%nat ->
  dump_loop (S fuel) data codemap sd ld i t printed = Ret (printed, t).
Proof.
  intros H. cbn [dump_loop].
  now replace (i <? length data)%nat with false by (symmetry; apply Nat.ltb_ge; lia).
Qed.

Lemma second_byte_present i val :
  nth_error data (S i) = Some val -> (length data <=? S i)%nat = false.
Proof.
  intros H. apply Nat.leb_gt. apply nth_error_Some. congruence.
Qed.

Lemma first_byte_present i code :
  nth_error data i = Some code -> (i <? length data)%nat = true.
Proof.
  intros H. apply Nat.ltb_lt. apply nth_error_Some. congruence.
Qed.

Lemma dump_loop_short_delay fuel i t printed val :
  nth_error data i = Some sd -> nth_error data (S i) = Some val ->
  dump_loop (S fuel) data codemap sd ld i t printed =
  dump_loop fuel data codemap sd ld (S (S i)) (t + (val + 1)) printed.
Proof.
  intros H1 H2. cbn [dump_loop].
  rewrite (first_byte_present _ _ H1), (index_some _ _ _ H1). cbn [bind].
  rewrite Z.eqb_refl, (second_byte_present _ _ H2), (index_some _ _ _ H2).
  reflexivity.
Qed.

Lemma dump_loop_long_delay fuel i t printed val :
  ld <> sd ->
  nth_error data i = Some ld -> nth_error data (S i) = Some val ->
  dump_loop (S fuel) data codemap sd ld i t printed =
  dump_loop fuel data codemap sd ld (S (S i)) (t + (val + 1) * 256) printed.
Proof.
  intros Hne H1 H2. cbn [dump_loop].
  rewrite (first_byte_present _ _ H1), (index_some _ _ _ H1). cbn [bind].
  rewrite (proj2 (Z.eqb_neq ld sd) Hne), Z.eqb_refl.
  rewrite (second_byte_present _ _ H2), (index_some _ _ _ H2).
  reflexivity.
Qed.

Lemma dump_loop_write fuel i t printed code val reg :
  code <> sd -> code <> ld ->
  nth_error data i = Some code -> nth_error data (S i) = Some val ->
  resolve codemap (RegisterWrite code val) = Some reg ->
  is_empty (describe reg val) = false ->
  dump_loop (S fuel) data codemap sd ld i t printed =
  dump_loop fuel data codemap sd ld (S (S i)) t
    (printed ++ [Row i t (bank_of code) reg val (describe reg val)]).
Proof.
  intros Hsd Hld H1 H2 Hres Hdesc. cbn [dump_loop].
  rewrite (first_byte_present _ _ H1), (index_some _ _ _ H1). cbn [bind].
  rewrite (proj2 (Z.eqb_neq code sd) Hsd), (proj2 (Z.eqb_neq code ld) Hld).
  rewrite (second_byte_present _ _ H2), (index_some _ _ _ H2). cbn [bind].
  unfold resolve in Hres.
  destruct (index_of code >=? Z.of_nat (length codemap)); [discriminate|].
  rewrite (index_some _ _ _ Hres). cbn [bind].
  now rewrite Hdesc.
Qed.

(** The loop of the dumper never raises and never runs out of fuel: it
    stops at the end of the buffer or at a lone last byte. *)
Lemma dump_loop_total : forall fuel i t printed,
  (length data - i < fuel)%nat ->
  exists r, dump_loop fuel data codemap sd ld i t printed = Ret r.
Proof.
  induction fuel as [|fuel IH]; intros i t printed Hfuel; [lia|].
  cbn [dump_loop].
  destruct (i <? length data)%nat eqn:Ei; [|eexists; reflexivity].
  apply Nat.ltb_lt in Ei. rewrite (index_in_range data i Ei). cbn [bind].
  assert (Hnext : forall t' printed', exists r,
            dump_loop fuel data codemap sd ld (S (S i)) t' printed' = Ret r)
    by (intros; apply IH; lia).
  destruct (length data <=? S i)%nat eqn:Ej.
  - destruct (nth i data 0 =? sd); [eexists; reflexivity|].
    destruct (nth i data 0 =? ld); eexists; reflexivity.
  - apply Nat.leb_gt in Ej. rewrite (index_in_range data (S i) Ej). cbn [bind].
    destruct (nth i data 0 =? sd); [apply Hnext|].
    destruct (nth i data 0 =? ld); [apply Hnext|].
    destruct (index_of (nth i data 0) >=? Z.of_nat (length codemap)) eqn:Eidx;
      [apply Hnext|].
    destruct (resolve_in_range codemap _ 0 Eidx) as (reg & -> & _). cbn [bind].
    destruct (negb (is_empty (describe reg (nth (S i) data 0)))); apply Hnext.
Qed.

End DumpLoop.

Section DumpHeader.

Variable data : list Z.
Hypothesis Hmagic : firstn 8 data = magic.
Hypothesis Hmajor : byte_at data 8 + 256 * byte_at data 9 = 2.
Hypothesis Hlen : (26 <= length data)%nat.

Lemma dump_dro_loop :
  dump_dro data =
  (r <- dump_loop (S (length data)) data (codemap_of data)
         (short_delay_of data) (long_delay_of data) (codemap_end data) 0
         [Text (header_info (short_delay_of data) (long_delay_of data)
                  (byte_at data 25));
          Text table_header; Text (repeat_char "-" 70)] ;;
   Ret (Done r)).
Proof.
  unfold dump_dro. rewrite (magic_accepted data Hmagic).
  rewrite (slice_two data 8), (slice_two data 10) by lia. cbn [unpack_H bind].
  fold (byte_at data 8) (byte_at data 9). rewrite Hmajor. cbn [Z.eqb Pos.eqb negb].
  rewrite !index_in_range by lia. cbn [bind].
  reflexivity.
Qed.

(** X15: On a buffer that passes the header checks the dumper always ends
    normally, whatever the command stream holds. *)
Lemma dump_dro_total : exists r, dump_dro data = Ret (Done r).
Proof.
  rewrite dump_dro_loop.
  edestruct dump_loop_total as (r & ->); [|exists r; reflexivity]. lia.
Qed.

End DumpHeader.

(** ** Header failures *)

Lemma magic_rejected data :
  firstn 8 data <> magic -> negb (bytes_eqb (slice data 0 8) magic) = true.
Proof.
  intros H. rewrite slice_from_start.
  destruct (bytes_eqb (firstn 8 data) magic) eqn:E; [|reflexivity].
  apply bytes_eqb_eq in E. contradiction.
Qed.

Lemma header_of_truncated data :
  (length data <= codemap_end data)%nat -> header_of data = data.
Proof. intros H. unfold header_of. now apply firstn_all2. Qed.

(** A buffer of 26 bytes or more whose codemap is cut short: the loops
    have nothing to read. *)
Lemma truncated_codemap data target :
  firstn 8 data = magic ->
  byte_at data 8 + 256 * byte_at data 9 = 2 ->
  (26 <= length data < codemap_end data)%nat ->
  remove_channel data target = Ret (Done (data, 0%nat)) /\
  isolate_channel data target = Ret (Done (data, 0%nat)) /\
  dump_dro data =
    Ret (Done ([Text (header_info (short_delay_of data) (long_delay_of data)
                        (byte_at data 25));
                Text table_header; Text (repeat_char "-" 70)], 0)).
Proof.
  intros Hm Hmaj [Hlen Hcut].
  assert (Hend : (codemap_end data <? length data)%nat = false)
    by (apply Nat.ltb_ge; lia).
  repeat split.
  - rewrite (remove_channel_loop data Hm Hmaj Hlen). cbn [remove_loop].
    rewrite Hend. cbn [bind]. now rewrite header_of_truncated by lia.
  - rewrite (isolate_channel_loop data Hm Hmaj Hlen). cbn [isolate_loop].
    rewrite Hend. cbn [bind]. now rewrite header_of_truncated by lia.
  - rewrite (dump_dro_loop data Hm Hmaj Hlen).
    now rewrite dump_loop_end by lia.
Qed.

Lemma wrong_version_filters data target :
  firstn 8 data = magic ->
  byte_at data 8 + 256 * byte_at data 9 <> 2 ->
  (10 <= length data)%nat ->
  remove_channel data target = Ret UnsupportedVersion /\
  isolate_channel data target = Ret UnsupportedVersion.
Proof.
  intros Hm Hmaj Hlen. unfold remove_channel, isolate_channel.
  rewrite (magic_accepted data Hm), (slice_two data 8) by lia.
  cbn [unpack_H bind]. fold (byte_at data 8) (byte_at data 9).
  now rewrite (proj2 (Z.eqb_neq _ _) Hmaj).
Qed.

Lemma wrong_version_dump data :
  firstn 8 data = magic ->
  byte_at data 8 + 256 * byte_at data 9 <> 2 ->
  (12 <= length data)%nat ->
  dump_dro data = Ret UnsupportedVersion.
Proof.
  intros Hm Hmaj Hlen. unfold dump_dro.
  rewrite (magic_accepted data Hm), (slice_two data 8), (slice_two data 10) by lia.
  cbn [unpack_H bind]. fold (byte_at data 8) (byte_at data 9).
  now rewrite (proj2 (Z.eqb_neq _ _) Hmaj).
Qed.

(** The three header fields at offsets 23, 24 and 25 are read one after
    the other; on a buffer shorter than 26 bytes one of the reads fails. *)
Lemma header_fields_missing (A : Type) data (k : Z -> Z -> Z -> py A) :
  (length data < 26)%nat ->
  (short_delay_code <- index data 23 ;;
   long_delay_code <- index data 24 ;;
   codemap_len <- index data 25 ;;
   k short_delay_code long_delay_code codemap_len) = Raise IndexError.
Proof.
  intros Hlen. unfold index.
  destruct (nth_error data 23) eqn:E23; [|reflexivity]. cbn [bind].
  destruct (nth_error data 24) eqn:E24; [|reflexivity]. cbn [bind].
  destruct (nth_error data 25) eqn:E25; [|reflexivity].
  assert (25 < length data)%nat by (apply nth_error_Some; congruence). lia.
Qed.

Lemma short_header data target :
  firstn 8 data = magic ->
  byte_at data 8 + 256 * byte_at data 9 = 2 ->
  (12 <= length data < 26)%nat ->
  remove_channel data target = Raise IndexError /\
  isolate_channel data target = Raise IndexError /\
  dump_dro data = Raise IndexError.
Proof.
  intros Hm Hmaj [Hlo Hhi]. unfold remove_channel, isolate_channel, dump_dro.
  rewrite (magic_accepted data Hm), (slice_two data 8), (slice_two data 10) by lia.
  cbn [unpack_H bind]. fold (byte_at data 8) (byte_at data 9).
  rewrite Hmaj. cbn [Z.eqb Pos.eqb negb].
  repeat split; apply header_fields_missing; exact Hhi.
Qed.

(** C8 (as the code has it): a wrong magic tag and a major version other
    than 2 end the command with the matching error and no output.  There
    is no truncation error: a buffer shorter than the 26 bytes of the
    fixed header ends the command with an uncaught [IndexError], and a
    buffer of 26 bytes or more that ends inside the codemap is
    processed like a file without command stream. *)
Theorem header_failures (data : list Z) (C : Z) :
  (firstn 8 data <> magic ->
     remove_channel data C = Ret BadMagic /\
     isolate_channel data C = Ret BadMagic /\
     dump_dro data = Ret BadMagic) /\
  (firstn 8 data = magic -> byte_at data 8 + 256 * byte_at data 9 <> 2 ->
     ((10 <= length data)%nat ->
        remove_channel data C = Ret UnsupportedVersion /\
        isolate_channel data C = Ret UnsupportedVersion) /\
     ((12 <= length data)%nat -> dump_dro data = Ret UnsupportedVersion)) /\
  (firstn 8 data = magic -> byte_at data 8 + 256 * byte_at data 9 = 2 ->
     ((12 <= length data < 26)%nat ->
        remove_channel data C = Raise IndexError /\
        isolate_channel data C = Raise IndexError /\
        dump_dro data = Raise IndexError) /\
     ((26 <= length data < codemap_end data)%nat ->
        remove_channel data C = Ret (Done (data, 0%nat)) /\
        isolate_channel data C = Ret (Done (data, 0%nat)) /\
        dump_dro data =
          Ret (Done ([Text (header_info (short_delay_of data) (long_delay_of data)
                              (byte_at data 25));
                      Text table_header; Text (repeat_char "-" 70)], 0)))).
Proof.
  split; [|split].
  - intros H. unfold remove_channel, isolate_channel, dump_dro.
    now rewrite (magic_rejected data H).
  - intros Hm Hmaj. split; intros Hlen.
    + now apply wrong_version_filters.
    + now apply wrong_version_dump.
  - intros Hm Hmaj. split; intros Hlen.
    + now apply short_header.
    + now apply truncated_codemap.
Qed.

Lemma header_failures_witness :
  remove_channel [0x44; 0x52; 0x4F] 0 = Ret BadMagic /\
  dump_dro (magic ++ [1; 0; 0; 0]) = Ret UnsupportedVersion /\
  remove_channel (magic ++ [2; 0; 0; 0; 0; 0]) 0 = Raise IndexError /\
  isolate_channel short_codemap_file 3 = Ret (Done (short_codemap_file, 0%nat)).
Proof.
  split; [|split; [|split]].
  - apply (header_failures [0x44; 0x52; 0x4F] 0). discriminate.
  - apply (header_failures (magic ++ [1; 0; 0; 0]) 0);
      [reflexivity | discriminate | simpl; lia].
  - apply (header_failures (magic ++ [2; 0; 0; 0; 0; 0]) 0);
      [reflexivity | reflexivity | simpl; lia].
  - apply (header_failures short_codemap_file 3);
      [reflexivity | reflexivity | vm_compute; lia].
Defined.

(** C8, the counterexample: a buffer of 26 bytes that announces a codemap
    of five bytes is shorter than its codemap end, and Remove writes it
    out unchanged instead of failing. *)
Lemma truncated_buffer_is_written :
  (length short_codemap_file < codemap_end short_codemap_file)%nat /\
  firstn 8 short_codemap_file = magic /\
  remove_channel short_codemap_file 0 = Ret (Done (short_codemap_file, 0%nat)).
Proof. split; [vm_compute; lia|]. split; reflexivity. Qed.

(** ** A lone trailing byte *)

(** C5, at the failing input: the header is complete and the command
    stream is one byte long.  The dumper stops and prints its three
    heading lines; Remove and Isolate raise [IndexError] at the read of
    the second byte of the token and write nothing. *)
Theorem lone_trailing_byte :
  complete_header lone_byte_file /\
  stream_of lone_byte_file = [0x05] /\
  remove_channel lone_byte_file 0 = Raise IndexError /\
  isolate_channel lone_byte_file 0 = Raise IndexError /\
  dump_dro lone_byte_file =
    Ret (Done ([Text (header_info 0x7A 0x7B 0); Text table_header;
                Text (repeat_char "-" 70)], 0)).
Proof.
  split.
  - unfold complete_header. repeat split; try reflexivity. vm_compute. lia.
  - repeat split; reflexivity.
Qed.

(** ** The dump scenario *)

(** C9, the counterexample: with short-delay opcode 0x00 the token
    (0x00, 0x30) is itself a short delay of 0x30 + 1 units.  The dumper
    prints its three heading lines and no row, and the accumulated time
    ends at 49 + 10 = 59. *)
Lemma scenario_write_is_a_delay :
  dump_dro (scenario_file 0x00 0x01 (repeat 0 11)) =
    Ret (Done ([Text (header_info 0x00 0x01 1); Text table_header;
                Text (repeat_char "-" 70)], 59)) /\
  decode 0x00 0x01 [0x00; 0x30; 0x00; 9] = [Delay 0x00 0x30; Delay 0x00 9].
Proof. split; reflexivity. Qed.

(** C9 (as the code has it): when neither delay opcode is 0x00, the
    dumper prints for the token (0x00, 0x30) one row with offset 27,
    time 0, bank 0, register 0xB0, value 0x30 and a description that
    mentions the note start, and the short delay of raw value 9 then
    brings the accumulated time to 10. *)
Theorem dump_scenario (sd ld : Z) (fields : list Z) :
  length fields = 11%nat -> sd <> 0 -> ld <> 0 ->
  let desc := "CH 0 | KeyOn: True | Blk: 4 | F-Hi: 0 <--- NOTE START"%string in
  dump_dro (scenario_file sd ld fields) =
    Ret (Done ([Text (header_info sd ld 1); Text table_header;
                Text (repeat_char "-" 70);
                Row 27 0 0 0xB0 0x30 desc], 10)) /\
  mentions "note start" desc = true /\
  render (Row 27 0 0 0xB0 0x30 desc) =
    ("0000001B   | 0        | 0   | B0   | 30   | " ++ desc)%string.
Proof.
  intros Hfields Hsd Hld desc. split; [|split; reflexivity].
  do 11 (destruct fields as [|? fields]; [discriminate|]).
  destruct fields; [|discriminate]. clear Hfields.
  match goal with |- dump_dro ?d = _ => set (data := d) end.
  assert (Hlen : (26 <= length data)%nat) by (simpl; lia).
  rewrite (dump_dro_loop data eq_refl eq_refl Hlen).
  change (codemap_of data) with [0xB0].
  change (short_delay_of data) with sd. change (long_delay_of data) with ld.
  change (codemap_end data) with 27%nat. change (byte_at data 25) with 1.
  change (S (length data)) with (S (S (S 29))).
  rewrite (dump_loop_write data [0xB0] sd ld _ 27 0 _ 0x00 0x30 0xB0);
    [| congruence | congruence | reflexivity ..].
  rewrite (dump_loop_short_delay data [0xB0] sd ld _ 29 0 _ 9);
    [| reflexivity ..].
  rewrite dump_loop_end by (simpl; lia).
  reflexivity.
Qed.

Lemma dump_scenario_witness :
  length (repeat 0 11) = 11%nat /\ 0x7A <> 0 /\ 0x7B <> 0 /\
  dump_dro (scenario_file 0x7A 0x7B (repeat 0 11)) =
    Ret (Done ([Text (header_info 0x7A 0x7B 1); Text table_header;
                Text (repeat_char "-" 70);
                Row 27 0 0 0xB0 0x30
                  "CH 0 | KeyOn: True | Blk: 4 | F-Hi: 0 <--- NOTE START"], 10)).
Proof.
  assert (H1 : length (repeat 0 11) = 11%nat) by reflexivity.
  assert (H2 : 0x7A <> 0) by lia.
  assert (H3 : 0x7B <> 0) by lia.
  split; [exact H1|]. split; [exact H2|]. split; [exact H3|].
  exact (proj1 (dump_scenario 0x7A 0x7B (repeat 0 11) H1 H2 H3)).
Defined.

(** ** Pitch shift by zero semitones *)

Lemma shift_by_one_table :
  forallb (fun f_low =>
    forallb (fun combined =>
      Bool.eqb (unchanged (shift_by f_low combined 1%float) f_low combined)
               (canonical f_low combined)) bytes256) bytes256 = true.
Proof. vm_compute. reflexivity. Qed.

Lemma in_bytes256 z : 0 <= z < 256 -> In z bytes256.
Proof.
  intros H. unfold bytes256. rewrite <- (Z2Nat.id z) by lia.
  apply in_map, in_seq. lia.
Qed.

Lemma unchanged_spec r f_low combined :
  unchanged r f_low combined = true <-> r = Ret (f_low, combined).
Proof.
  unfold unchanged. destruct r as [[x y] | e |]; try (split; discriminate).
  rewrite andb_true_iff, !Z.eqb_eq. split.
  - intros [-> ->]. reflexivity.
  - intros E. injection E as -> ->. auto.
Qed.

Lemma canonical_spec f_low combined :
  canonical f_low combined = true <->
  Z.land combined 0xC0 = 0 /\
  (512 <= Z.lor (Z.shiftl (Z.land combined 0x03) 8) f_low
   \/ Z.shiftr (Z.land combined 0x1C) 2 = 0).
Proof.
  unfold canonical.
  rewrite andb_true_iff, orb_true_iff, !Z.eqb_eq, Z.leb_le. tauto.
Qed.

Lemma shift_by_one f_low combined :
  0 <= f_low < 256 -> 0 <= combined < 256 ->
  (shift_by f_low combined 1%float = Ret (f_low, combined) <->
   canonical f_low combined = true).
Proof.
  intros Ha Hb. rewrite <- unchanged_spec.
  pose proof shift_by_one_table as T. rewrite forallb_forall in T.
  specialize (T _ (in_bytes256 _ Ha)). rewrite forallb_forall in T.
  specialize (T _ (in_bytes256 _ Hb)). apply Bool.eqb_prop in T.
  rewrite T. tauto.
Qed.

Section PitchShiftZero.

Variable pow : float -> float -> float.
Hypothesis pow_zero : forall x, pow x 0%float = 1%float.

Lemma calc_shift_zero hex_a0 hex_b0 :
  calc_shift pow hex_a0 hex_b0 0%float = shift_by hex_a0 hex_b0 1%float.
Proof.
  unfold calc_shift. cbv zeta.
  change (PrimFloat.div 0%float 12%float) with 0%float.
  now rewrite pow_zero.
Qed.

End PitchShiftZero.

(** C7, the counterexample: at 0 semitones the pair (0xE2, 0x31), block 4
    and frequency number 482, comes back as (0xC4, 0x2F), block 3 and
    frequency number 964, for every power function that obeys the rule
    of C. *)
Lemma calc_shift_zero_renormalises :
  (forall pow : float -> float -> float,
     (forall x, pow x 0%float = 1%float) ->
     calc_shift pow 0xE2 0x31 0%float = Ret (0xC4, 0x2F)) /\
  calc_shift pow_at_zero 0xE2 0x31 0%float <> Ret (0xE2, 0x31).
Proof.
  split.
  - intros pow Hpow. rewrite (calc_shift_zero pow Hpow). reflexivity.
  - vm_compute. discriminate.
Qed.

(** C7 (as the code has it): at 0 semitones a pair of bytes comes back
    unchanged exactly when it is already in normal form: bits 6 and 7 of
    the combined byte are clear, and the frequency number is at least 512
    or the block is 0. *)
Theorem calc_shift_zero_identity (pow : float -> float -> float)
    (f_low combined : Z) :
  (forall x, pow x 0%float = 1%float) ->
  0 <= f_low < 256 -> 0 <= combined < 256 ->
  (calc_shift pow f_low combined 0%float = Ret (f_low, combined) <->
   Z.land combined 0xC0 = 0 /\
   (512 <= Z.lor (Z.shiftl (Z.land combined 0x03) 8) f_low
    \/ Z.shiftr (Z.land combined 0x1C) 2 = 0)).
Proof.
  intros Hpow Ha Hb. rewrite (calc_shift_zero pow Hpow).
  rewrite (shift_by_one _ _ Ha Hb). apply canonical_spec.
Qed.

Lemma pow_at_zero_rule : forall x, pow_at_zero x 0%float = 1%float.
Proof. intros x. reflexivity. Qed.

Lemma calc_shift_zero_identity_witness :
  (forall x, pow_at_zero x 0%float = 1%float) /\
  0 <= 0x44 < 256 /\ 0 <= 0x32 < 256 /\
  calc_shift pow_at_zero 0x44 0x32 0%float = Ret (0x44, 0x32).
Proof.
  assert (Ha : 0 <= 0x44 < 256) by lia.
  assert (Hb : 0 <= 0x32 < 256) by lia.
  split; [exact pow_at_zero_rule|]. split; [exact Ha|]. split; [exact Hb|].
  apply (calc_shift_zero_identity pow_at_zero 0x44 0x32 pow_at_zero_rule Ha Hb).
  split; [reflexivity|]. left. vm_compute. discriminate.
Defined.

(** ** No command runs out of fuel

    The fuel given at the entry points is enough on every input: the file
    commands end with a result or an exception, and so does the
    calculator. *)

Lemma bind_terminates (A B : Type) (m : py A) (k : A -> py B) :
  m <> Diverge -> (forall a, k a <> Diverge) -> bind m k <> Diverge.
Proof. destruct m; cbn; auto; discriminate. Qed.

Lemma index_terminates l i : index l i <> Diverge.
Proof. unfold index. destruct (nth_error l i); discriminate. Qed.

Lemma unpack_H_terminates bs : unpack_H bs <> Diverge.
Proof. destruct bs as [|? [|? [|? ?]]]; discriminate. Qed.

Ltac terminates_with loop_ends :=
  repeat first
    [ discriminate
    | apply loop_ends
    | apply bind_terminates; [first [apply index_terminates
                                     | apply unpack_H_terminates
                                     | apply loop_ends] | intros ?]
    | match goal with |- (if ?b then _ else _) <> _ => destruct b end
    | cbv zeta ].

Lemma remove_loop_terminates data codemap sd ld target i out n :
  remove_loop (S (length data)) data codemap sd ld target i out n <> Diverge.
Proof.
  rewrite (remove_loop_stream data codemap sd ld target (skipn i data) i out n
             (S (length data)) eq_refl) by (rewrite length_skipn; lia).
  destruct (Nat.even (length (skipn i data))); discriminate.
Qed.

Lemma isolate_loop_terminates data codemap sd ld target i out n :
  isolate_loop (S (length data)) data codemap sd ld target i out n <> Diverge.
Proof.
  rewrite (isolate_loop_stream data codemap sd ld target (skipn i data) i out n
             (S (length data)) eq_refl) by (rewrite length_skipn; lia).
  destruct (Nat.even (length (skipn i data))); discriminate.
Qed.

Lemma dump_loop_terminates data codemap sd ld i t printed :
  dump_loop (S (length data)) data codemap sd ld i t printed <> Diverge.
Proof.
  destruct (dump_loop_total data codemap sd ld (S (length data)) i t printed)
    as (r & ->); [lia | discriminate].
Qed.

Lemma remove_channel_terminates data target : remove_channel data target <> Diverge.
Proof. unfold remove_channel. terminates_with remove_loop_terminates. Qed.

Lemma isolate_channel_terminates data target : isolate_channel data target <> Diverge.
Proof. unfold isolate_channel. terminates_with isolate_loop_terminates. Qed.

Lemma dump_dro_terminates data : dump_dro data <> Diverge.
Proof. unfold dump_dro. terminates_with dump_loop_terminates. Qed.

Lemma block_field hex_b0 : 0 <= Z.shiftr (Z.land hex_b0 0x1C) 2 <= 7.
Proof.
  rewrite Z.shiftr_land. change (Z.shiftr 0x1C 2) with (Z.ones 3).
  rewrite Z.land_ones by lia. change (2 ^ 3) with 8.
  pose proof (Z.mod_pos_bound (Z.shiftr hex_b0 2) 8). lia.
Qed.

Lemma raise_block_total : forall fuel f blk,
  (Z.to_nat (7 - blk) < fuel)%nat ->
  exists f' blk', raise_block fuel f blk = Ret (f', blk') /\
                  blk <= blk' <= Z.max blk 7.
Proof.
  induction fuel as [|fuel IH]; intros f blk Hfuel; [lia|]. cbn [raise_block].
  destruct ((f >=? 1024) && (blk <? 7)) eqn:E.
  - apply andb_true_iff in E. destruct E as [_ E]. apply Z.ltb_lt in E.
    destruct (IH (f / 2) (blk + 1)) as (f' & blk' & -> & Hb); [lia|].
    exists f', blk'. split; [reflexivity | lia].
  - exists f, blk. split; [reflexivity | lia].
Qed.

Lemma lower_block_total : forall fuel f blk,
  (Z.to_nat blk < fuel)%nat -> exists r, lower_block fuel f blk = Ret r.
Proof.
  induction fuel as [|fuel IH]; intros f blk Hfuel; [lia|]. cbn [lower_block].
  destruct ((f <? 512) && (blk >? 0)) eqn:E; [|eexists; reflexivity].
  apply andb_true_iff in E. destruct E as [_ E]. apply Z.gtb_gt in E.
  apply IH. lia.
Qed.

Lemma shift_by_terminates hex_a0 hex_b0 multiplier :
  shift_by hex_a0 hex_b0 multiplier <> Diverge.
Proof.
  unfold shift_by. cbv zeta.
  destruct (int_of_float _) as [new_f_num | e |] eqn:E; cbn [bind];
    [| discriminate |].
  - pose proof (block_field hex_b0) as Hb.
    destruct (raise_block_total 8 new_f_num (Z.shiftr (Z.land hex_b0 0x1C) 2))
      as (f' & blk' & -> & Hb'); [lia|]. cbn [bind].
    destruct (lower_block_total 8 f' blk') as ([f'' blk''] & ->); [lia|].
    cbn [bind]. discriminate.
  - unfold int_of_float in E. destruct (Prim2SF _) as [| | |[]]; discriminate.
Qed.

(** * Further properties of the code *)

(** ** The classifier beyond the two range rules *)

Lemma invalid_entry_offsets n v :
  nth_error op_ch_map n = Some v ->
  (v = -1 <-> (n = 6 \/ n = 7 \/ n = 14 \/ n = 15)%nat).
Proof.
  intros H.
  assert (Hn : (n < length op_ch_map)%nat) by (apply nth_error_Some; congruence).
  simpl in Hn.
  do 22 (destruct n as [|n]; [simpl in H; injection H as <-; split; intros; lia|]).
  lia.
Qed.

Lemma base_ch_nonneg bank : 0 <= base_ch bank.
Proof. unfold base_ch. destruct (bank =? 0); lia. Qed.

(** X1: A register is classified Global exactly when it is outside the three
    per-channel ranges and is not an operator register with a used
    offset: the operator offsets 6, 7, 14 and 15 are Global, as is every
    register outside the eight ranges. *)
Theorem classifier_global_iff (bank reg : Z) :
  get_channel_from_reg bank reg = Global <->
  ~ channel_range reg /\
  (operator_range reg ->
   reg mod 0x20 = 6 \/ reg mod 0x20 = 7 \/ reg mod 0x20 = 14 \/ reg mod 0x20 = 15).
Proof.
  pose proof (base_ch_nonneg bank) as Hbase. unfold Global.
  destruct (is_channel_reg reg) eqn:E1.
  - apply is_channel_reg_spec in E1. pose proof (channel_nibble _ E1) as Hn.
    unfold get_channel_from_reg. rewrite (proj2 (is_channel_reg_spec reg) E1).
    split; [lia | tauto].
  - assert (Hnc : ~ channel_range reg)
      by (intros H; apply is_channel_reg_spec in H; congruence).
    destruct (is_operator_reg reg) eqn:E2.
    + apply is_operator_reg_spec in E2.
      pose proof (operator_offset _ E2) as Hoff.
      destruct (operator_lookup bank reg E2) as (v & Hv & ->).
      pose proof (invalid_entry_offsets _ _ Hv) as Hinv.
      pose proof (op_ch_map_entries _ _ Hv) as Hent. unfold Global.
      destruct (v =? -1) eqn:Ev.
      * apply Z.eqb_eq in Ev. split; [|reflexivity]. intros _.
        split; [exact Hnc|]. intros _. apply Hinv in Ev. lia.
      * apply Z.eqb_neq in Ev. split; [lia|]. intros [_ H].
        exfalso. apply Ev, Hinv. specialize (H E2). lia.
    + rewrite (classify_other reg E1 E2). split; [|reflexivity]. intros _.
      split; [exact Hnc|]. intros H. apply is_operator_reg_spec in H. congruence.
Qed.

(** X2: The bank only moves the result by nine: with any bank other than 0
    a register is Global when it is Global in bank 0, and otherwise its
    channel is the channel of bank 0 plus 9. *)
Theorem classifier_bank_shift (bank reg : Z) :
  bank <> 0 ->
  (get_channel_from_reg 0 reg = Global -> get_channel_from_reg bank reg = Global) /\
  (get_channel_from_reg 0 reg <> Global ->
   get_channel_from_reg bank reg = get_channel_from_reg 0 reg + 9).
Proof.
  intros Hb.
  assert (Hbase : base_ch bank = 9)
    by (unfold base_ch; now rewrite (proj2 (Z.eqb_neq bank 0) Hb)).
  destruct (is_channel_reg reg) eqn:E1.
  - pose proof (channel_nibble _ (proj1 (is_channel_reg_spec reg) E1)) as Hn.
    unfold get_channel_from_reg, Global. rewrite E1, Hbase.
    change (base_ch 0) with 0. split; intros; lia.
  - destruct (is_operator_reg reg) eqn:E2.
    + apply is_operator_reg_spec in E2.
      destruct (operator_lookup bank reg E2) as (v & Hv & ->).
      destruct (operator_lookup 0 reg E2) as (v' & Hv' & ->).
      assert (v' = v) by congruence. subst v'. rewrite Hbase.
      change (base_ch 0) with 0.
      unfold Global. destruct (v =? -1) eqn:Ev;
        [|apply Z.eqb_neq in Ev]; split; intros; lia.
    + rewrite !(classify_other reg E1 E2). split; intros; [reflexivity|congruence].
Qed.

Lemma classifier_bank_shift_witness :
  1 <> 0 /\ get_channel_from_reg 1 0x4A = 5 + 9.
Proof.
  assert (Hb : 1 <> 0) by lia. split; [exact Hb|].
  rewrite (proj2 (classifier_bank_shift 1 0x4A Hb)); [reflexivity|].
  vm_compute. discriminate.
Defined.

(** X3: Every channel from 0 to 17 is reached: channel [ch] is the channel of
    the registers 0xA0, 0xB0 and 0xC0 plus [ch mod 9] in bank [ch / 9]. *)
Theorem classifier_reaches_every_channel (ch : Z) :
  0 <= ch <= 17 ->
  get_channel_from_reg (ch / 9) (0xA0 + ch mod 9) = ch /\
  get_channel_from_reg (ch / 9) (0xB0 + ch mod 9) = ch /\
  get_channel_from_reg (ch / 9) (0xC0 + ch mod 9) = ch.
Proof.
  intros H.
  assert (E : ch = 0 \/ ch = 1 \/ ch = 2 \/ ch = 3 \/ ch = 4 \/ ch = 5 \/ ch = 6
              \/ ch = 7 \/ ch = 8 \/ ch = 9 \/ ch = 10 \/ ch = 11 \/ ch = 12
              \/ ch = 13 \/ ch = 14 \/ ch = 15 \/ ch = 16 \/ ch = 17) by lia.
  repeat (destruct E as [-> | E]; [repeat split; reflexivity|]).
  subst ch. repeat split; reflexivity.
Qed.

Lemma classifier_reaches_every_channel_witness :
  0 <= 13 <= 17 /\ get_channel_from_reg 1 0xB4 = 13.
Proof.
  assert (H : 0 <= 13 <= 17) by lia. split; [exact H|].
  exact (proj1 (proj2 (classifier_reaches_every_channel 13 H))).
Defined.

(** X4: The channel of an operator register depends only on its offset
    [reg mod 0x20], not on which of the five families it is in; and the
    two operators of a channel are three registers apart: for offsets
    0-2, 8-10 and 16-18 the register three above is an operator register
    of the same channel. *)
Theorem operator_registers_of_a_channel (bank reg : Z) :
  operator_range reg ->
  (forall reg', operator_range reg' -> reg' mod 0x20 = reg mod 0x20 ->
     get_channel_from_reg bank reg' = get_channel_from_reg bank reg) /\
  (reg mod 8 < 3 ->
     operator_range (reg + 3) /\
     get_channel_from_reg bank reg <> Global /\
     get_channel_from_reg bank (reg + 3) = get_channel_from_reg bank reg).
Proof.
  intros Hreg. split.
  - intros reg' Hreg' Hoff.
    destruct (operator_lookup bank reg Hreg) as (v & Hv & ->).
    destruct (operator_lookup bank reg' Hreg') as (v' & Hv' & ->).
    rewrite Hoff, Hv in Hv'. injection Hv' as <-. reflexivity.
  - intros Hlow.
    pose proof (operator_offset _ Hreg) as Hoff.
    assert (Hreg3 : operator_range (reg + 3))
      by (unfold operator_range in *; Z.to_euclidean_division_equations; lia).
    split; [exact Hreg3|].
    destruct (operator_lookup bank reg Hreg) as (v & Hv & ->).
    destruct (operator_lookup bank (reg + 3) Hreg3) as (v' & Hv' & ->).
    assert (Hoff3 : (reg + 3) mod 0x20 = reg mod 0x20 + 3)
      by (Z.to_euclidean_division_equations; lia).
    rewrite Hoff3 in Hv'.
    assert (Hcase : reg mod 0x20 = 0 \/ reg mod 0x20 = 1 \/ reg mod 0x20 = 2
                    \/ reg mod 0x20 = 8 \/ reg mod 0x20 = 9 \/ reg mod 0x20 = 10
                    \/ reg mod 0x20 = 16 \/ reg mod 0x20 = 17 \/ reg mod 0x20 = 18)
      by (Z.to_euclidean_division_equations; lia).
    pose proof (base_ch_nonneg bank) as Hbase. unfold Global.
    repeat (destruct Hcase as [E | Hcase];
            [rewrite E in Hv, Hv'; simpl in Hv, Hv';
             injection Hv as <-; injection Hv' as <-; simpl; split; [lia|reflexivity]|]).
    rewrite Hcase in Hv, Hv'; simpl in Hv, Hv'.
    injection Hv as <-; injection Hv' as <-; simpl; split; [lia|reflexivity].
Qed.

Lemma operator_registers_of_a_channel_witness :
  operator_range 0x69 /\
  get_channel_from_reg 0 0x6C = get_channel_from_reg 0 0x69 /\
  get_channel_from_reg 0 0xE9 = get_channel_from_reg 0 0x69.
Proof.
  assert (H : operator_range 0x69) by (unfold operator_range; lia).
  assert (H' : operator_range 0xE9) by (unfold operator_range; lia).
  destruct (operator_registers_of_a_channel 0 0x69 H) as [Hfam Hpair].
  split; [exact H|]. split.
  - apply Hpair. reflexivity.
  - apply Hfam; [exact H' | reflexivity].
Defined.

(** ** The selector byte of a write token *)

(** X5: The code byte of a write splits into bank and index without loss: the
    bank is 0 or 1, the index is at most 127, and the byte is
    [128 * bank + index]. *)
Theorem selector_split (code : Z) :
  0 <= code < 256 ->
  (bank_of code = 0 \/ bank_of code = 1) /\
  0 <= index_of code <= 127 /\
  code = 128 * bank_of code + index_of code.
Proof.
  intros H. unfold bank_of, index_of.
  assert (E1 : forall x, Z.land x 1 = x mod 2)
    by (intros x; apply (Z.land_ones x 1); lia).
  assert (E7 : forall x, Z.land x 0x7F = x mod 128)
    by (intros x; apply (Z.land_ones x 7); lia).
  rewrite E1, E7, Z.shiftr_div_pow2 by lia. change (2 ^ 7) with 128.
  Z.to_euclidean_division_equations. lia.
Qed.

Lemma selector_split_witness :
  0 <= 0x85 < 256 /\ bank_of 0x85 = 1 /\ index_of 0x85 = 5.
Proof.
  assert (H : 0 <= 0x85 < 256) by lia. split; [exact H|].
  destruct (selector_split 0x85 H) as (Hb & Hi & E).
  split; reflexivity.
Defined.

(** ** What the filters write *)

Lemma decode_tagged sd ld : forall s, Forall (tagged sd ld) (decode sd ld s).
Proof.
  induction s as [| a | a b s IH] using pair_ind; cbn [decode]; try constructor;
    [|exact IH].
  destruct ((a =? sd) || (a =? ld)) eqn:E; exact E.
Qed.

Lemma encode_decode sd ld : forall toks,
  Forall (tagged sd ld) toks -> decode sd ld (flat_map token_bytes toks) = toks.
Proof.
  induction toks as [|t toks IH]; intros H; [reflexivity|].
  inversion H as [|? ? Ht Htoks]; subst.
  destruct t as [code v | code v]; cbn [flat_map token_bytes app decode];
    cbn [tagged] in Ht; rewrite Ht, (IH Htoks); reflexivity.
Qed.

Lemma Forall_filter_keeps (A : Type) (P : A -> Prop) (f : A -> bool) l :
  Forall P l -> Forall P (filter f l).
Proof.
  rewrite !Forall_forall. intros H x Hx. apply filter_In in Hx. now apply H.
Qed.

Lemma length_token_bytes toks :
  length (flat_map token_bytes toks) = (2 * length toks)%nat.
Proof.
  induction toks as [|t toks IH]; [reflexivity|].
  cbn [flat_map]. rewrite length_app, IH. destruct t; simpl; lia.
Qed.

Lemma filter_split_length (A : Type) (f : A -> bool) l :
  (length (filter f l) + length (filter (fun x => negb (f x)) l) = length l)%nat.
Proof.
  induction l as [|x l IH]; [reflexivity|].
  cbn [filter]. destruct (f x); simpl; lia.
Qed.

Lemma filter_swap (A : Type) (f g : A -> bool) l :
  filter f (filter g l) = filter g (filter f l).
Proof.
  induction l as [|x l IH]; [reflexivity|]. cbn [filter].
  destruct (f x) eqn:Ef, (g x) eqn:Eg; cbn [filter];
    rewrite ?Ef, ?Eg, IH; reflexivity.
Qed.

Lemma filter_twice (A : Type) (f : A -> bool) l :
  filter f (filter f l) = filter f l.
Proof.
  induction l as [|x l IH]; [reflexivity|]. cbn [filter].
  destruct (f x) eqn:Ef; cbn [filter]; rewrite ?Ef, IH; reflexivity.
Qed.

Lemma filter_complement (A : Type) (f : A -> bool) l :
  filter (fun x => negb (f x)) (filter f l) = [].
Proof.
  apply filter_none. intros x Hx. apply filter_In in Hx. now rewrite (proj2 Hx).
Qed.

Lemma filter_counts_union (A : Type) (d1 d2 : A -> bool) l :
  (length (filter d1 l) + length (filter d2 (filter (fun x => negb (d1 x)) l))
   = length (filter (fun x => d1 x || d2 x) l))%nat.
Proof.
  induction l as [|x l IH]; [reflexivity|]. cbn [filter].
  destruct (d1 x); cbn [negb orb filter length]; [lia|].
  destruct (d2 x); cbn [length]; lia.
Qed.

Lemma stream_tokens data :
  valid_dro data -> flat_map token_bytes (tokens_of data) = stream_of data.
Proof. intros Hv. apply decode_bytes, valid_stream_even, Hv. Qed.

(** The output of a filter is again a valid file: it has the header, the
    codemap and the delay opcodes of the input, and its tokens are the
    tokens the policy keeps. *)
Section Rewritten.

Variables (data : list Z) (keeps : StreamToken -> bool).
Hypothesis Hvalid : valid_dro data.

Lemma header_length : length (header_of data) = codemap_end data.
Proof.
  unfold header_of. apply firstn_length_le. apply Hvalid.
Qed.

Lemma codemap_end_min : (26 <= codemap_end data)%nat.
Proof. unfold codemap_end. lia. Qed.

Lemma rewritten_prefix : firstn (codemap_end data) (rewritten keeps data) = header_of data.
Proof.
  unfold rewritten, filtered. cbn [fst].
  rewrite firstn_app, header_length, Nat.sub_diag, firstn_O, app_nil_r.
  rewrite <- header_length. apply firstn_all.
Qed.

Lemma rewritten_byte i :
  (i < codemap_end data)%nat -> byte_at (rewritten keeps data) i = byte_at data i.
Proof.
  intros Hi. unfold byte_at.
  transitivity (nth i (firstn (codemap_end data) (rewritten keeps data)) 0).
  - rewrite nth_firstn. now rewrite (proj2 (Nat.ltb_lt _ _) Hi).
  - rewrite rewritten_prefix. unfold header_of. rewrite nth_firstn.
    now rewrite (proj2 (Nat.ltb_lt _ _) Hi).
Qed.

Lemma rewritten_codemap_end : codemap_end (rewritten keeps data) = codemap_end data.
Proof.
  pose proof codemap_end_min. unfold codemap_end at 1 2.
  now rewrite rewritten_byte by lia.
Qed.

Lemma rewritten_header : header_of (rewritten keeps data) = header_of data.
Proof. unfold header_of at 1. rewrite rewritten_codemap_end. apply rewritten_prefix. Qed.

Lemma rewritten_stream :
  stream_of (rewritten keeps data) = flat_map token_bytes (filter keeps (tokens_of data)).
Proof.
  unfold stream_of. rewrite rewritten_codemap_end.
  unfold rewritten, filtered. cbn [fst].
  rewrite skipn_app, header_length, Nat.sub_diag.
  rewrite <- header_length, skipn_all. reflexivity.
Qed.

Lemma rewritten_opcodes :
  short_delay_of (rewritten keeps data) = short_delay_of data /\ long_delay_of (rewritten keeps data) = long_delay_of data.
Proof.
  pose proof codemap_end_min.
  unfold short_delay_of, long_delay_of. split; apply rewritten_byte; lia.
Qed.

Lemma rewritten_codemap : codemap_of (rewritten keeps data) = codemap_of data.
Proof.
  unfold codemap_of, slice. rewrite rewritten_codemap_end.
  rewrite <- !skipn_firstn_comm. now rewrite rewritten_prefix.
Qed.

Lemma rewritten_tokens : tokens_of (rewritten keeps data) = filter keeps (tokens_of data).
Proof.
  unfold tokens_of at 1. destruct rewritten_opcodes as [-> ->].
  rewrite rewritten_stream. apply encode_decode.
  apply Forall_filter_keeps, decode_tagged.
Qed.

Lemma rewritten_length :
  length (rewritten keeps data) = (codemap_end data + 2 * length (filter keeps (tokens_of data)))%nat.
Proof.
  unfold rewritten, filtered. cbn [fst].
  now rewrite length_app, header_length, length_token_bytes.
Qed.

Lemma rewritten_valid : valid_dro (rewritten keeps data).
Proof.
  pose proof codemap_end_min as Hmin.
  destruct Hvalid as (Hm & Hmaj & Hce & Heven).
  unfold valid_dro. rewrite rewritten_codemap_end, rewritten_length.
  rewrite !rewritten_byte by lia. repeat split.
  - rewrite <- Hm. transitivity (firstn 8 (firstn (codemap_end data) (rewritten keeps data))).
    + rewrite firstn_firstn. now replace (Nat.min 8 (codemap_end data)) with 8%nat by lia.
    + rewrite rewritten_prefix. unfold header_of. rewrite firstn_firstn.
      now replace (Nat.min 8 (codemap_end data)) with 8%nat by lia.
  - exact Hmaj.
  - lia.
  - exists (length (filter keeps (tokens_of data))). lia.
Qed.

Lemma input_length :
  length data = (codemap_end data + 2 * length (tokens_of data))%nat.
Proof.
  rewrite <- (firstn_skipn (codemap_end data) data) at 1.
  rewrite length_app. fold (header_of data) (stream_of data).
  now rewrite header_length, <- (stream_tokens data Hvalid), length_token_bytes.
Qed.

End Rewritten.

Lemma remove_channel_rewritten data target :
  valid_dro data ->
  remove_channel data target =
  Ret (Done (rewritten (fun t => negb (remove_drops (codemap_of data) target t)) data,
             length (filter (remove_drops (codemap_of data) target) (tokens_of data)))).
Proof. intros Hv. now rewrite (remove_channel_valid data target Hv). Qed.

Lemma isolate_channel_rewritten data target :
  valid_dro data ->
  isolate_channel data target =
  Ret (Done (rewritten (isolate_keeps (codemap_of data) target) data,
             length (filter (fun t => negb (isolate_keeps (codemap_of data) target t))
                       (tokens_of data)))).
Proof. intros Hv. now rewrite (isolate_channel_valid data target Hv). Qed.

Lemma rewritten_compose data k1 k2 :
  valid_dro data ->
  rewritten k2 (rewritten k1 data) =
  header_of data ++ flat_map token_bytes (filter k2 (filter k1 (tokens_of data))).
Proof.
  intros Hv. unfold rewritten at 1. unfold filtered. cbn [fst].
  now rewrite (rewritten_header data k1 Hv), (rewritten_tokens data k1 Hv).
Qed.

(** X6: Remove turns a valid file into a valid file: the output has the tag,
    the version, the whole codemap and a command stream of whole tokens;
    its header and codemap are the input's, byte for byte (the two length
    fields included); and it is shorter than the input by two bytes for
    each token counted as dropped. *)
Theorem remove_output_valid (data : list Z) (C : Z) :
  valid_dro data ->
  exists out n,
    remove_channel data C = Ret (Done (out, n)) /\
    valid_dro out /\
    header_of out = header_of data /\
    (length out + 2 * n = length data)%nat.
Proof.
  intros Hv. eexists _, _. split; [exact (remove_channel_rewritten data C Hv)|].
  split; [now apply rewritten_valid|]. split; [now apply rewritten_header|].
  rewrite (rewritten_length data _ Hv), (input_length data Hv).
  pose proof (filter_split_length _ (remove_drops (codemap_of data) C) (tokens_of data)).
  lia.
Qed.

Lemma remove_output_valid_witness :
  valid_dro sample_file /\
  exists out n, remove_channel sample_file 9 = Ret (Done (out, n)) /\
                valid_dro out /\ header_of out = header_of sample_file /\
                (length out + 2 * n = length sample_file)%nat.
Proof.
  split; [exact sample_file_valid|].
  exact (remove_output_valid sample_file 9 sample_file_valid).
Defined.

(** X7: Isolate turns a valid file into a valid file: the output has the
    tag, the version, the whole codemap and a command stream of whole
    tokens; its header and codemap are the input's, byte for byte; and it
    is shorter than the input by two bytes for each token counted as
    dropped. *)
Theorem isolate_output_valid (data : list Z) (C : Z) :
  valid_dro data ->
  exists out n,
    isolate_channel data C = Ret (Done (out, n)) /\
    valid_dro out /\
    header_of out = header_of data /\
    (length out + 2 * n = length data)%nat.
Proof.
  intros Hv. eexists _, _. split; [exact (isolate_channel_rewritten data C Hv)|].
  split; [now apply rewritten_valid|]. split; [now apply rewritten_header|].
  rewrite (rewritten_length data _ Hv), (input_length data Hv).
  pose proof (filter_split_length _ (isolate_keeps (codemap_of data) C) (tokens_of data)).
  lia.
Qed.

Lemma isolate_output_valid_witness :
  valid_dro sample_file /\
  exists out n, isolate_channel sample_file 9 = Ret (Done (out, n)) /\
                valid_dro out /\ header_of out = header_of sample_file /\
                (length out + 2 * n = length sample_file)%nat.
Proof.
  split; [exact sample_file_valid|].
  exact (isolate_output_valid sample_file 9 sample_file_valid).
Defined.

(** X8: Remove is idempotent: removing the same channel from the output of
    Remove writes that output again and drops nothing. *)
Theorem remove_idempotent (data : list Z) (C : Z) (out : list Z) (n : nat) :
  valid_dro data ->
  remove_channel data C = Ret (Done (out, n)) ->
  remove_channel out C = Ret (Done (out, 0%nat)).
Proof.
  intros Hv H. rewrite (remove_channel_rewritten data C Hv) in H.
  injection H as <- _.
  set (k := fun t => negb (remove_drops (codemap_of data) C t)).
  rewrite (remove_channel_rewritten _ C (rewritten_valid data k Hv)).
  rewrite (rewritten_codemap data k Hv). fold k.
  rewrite (rewritten_compose data k k Hv), filter_twice.
  rewrite (rewritten_tokens data k Hv).
  rewrite (filter_none _ (remove_drops (codemap_of data) C) (filter k (tokens_of data)));
    [reflexivity|].
  intros t Ht. apply filter_In in Ht. destruct Ht as [_ Ht]. unfold k in Ht.
  now destruct (remove_drops (codemap_of data) C t).
Qed.

Lemma remove_idempotent_witness :
  valid_dro sample_file /\
  remove_channel
    (firstn 29 sample_file ++ [0x7A; 0x09; 0x81; 0x3F; 0x02; 0x20; 0x05; 0x11]) 0 =
  Ret (Done (firstn 29 sample_file
             ++ [0x7A; 0x09; 0x81; 0x3F; 0x02; 0x20; 0x05; 0x11], 0%nat)).
Proof.
  split; [exact sample_file_valid|].
  apply (remove_idempotent sample_file 0 _ 1%nat sample_file_valid). reflexivity.
Defined.

(** X9: Isolate is idempotent: isolating the same channel from the output
    of Isolate writes that output again and drops nothing. *)
Theorem isolate_idempotent (data : list Z) (C : Z) (out : list Z) (n : nat) :
  valid_dro data ->
  isolate_channel data C = Ret (Done (out, n)) ->
  isolate_channel out C = Ret (Done (out, 0%nat)).
Proof.
  intros Hv H. rewrite (isolate_channel_rewritten data C Hv) in H.
  injection H as <- _.
  set (k := isolate_keeps (codemap_of data) C).
  rewrite (isolate_channel_rewritten _ C (rewritten_valid data k Hv)).
  rewrite (rewritten_codemap data k Hv). fold k.
  rewrite (rewritten_compose data k k Hv), filter_twice.
  rewrite (rewritten_tokens data k Hv), filter_complement. reflexivity.
Qed.

Lemma isolate_idempotent_witness :
  valid_dro sample_file /\
  isolate_channel
    (firstn 29 sample_file ++ [0x00; 0x30; 0x7A; 0x09; 0x02; 0x20; 0x05; 0x11]) 0 =
  Ret (Done (firstn 29 sample_file
             ++ [0x00; 0x30; 0x7A; 0x09; 0x02; 0x20; 0x05; 0x11], 0%nat)).
Proof.
  split; [exact sample_file_valid|].
  apply (isolate_idempotent sample_file 0 _ 1%nat sample_file_valid). reflexivity.
Defined.

(** X10: Removing two channels one after the other gives the same bytes in
    either order, and the two dropped counts add up to the same total. *)
Theorem remove_commutes (data : list Z) (C1 C2 : Z)
    (out1 out2 : list Z) (n1 n2 : nat) :
  valid_dro data ->
  remove_channel data C1 = Ret (Done (out1, n1)) ->
  remove_channel data C2 = Ret (Done (out2, n2)) ->
  exists out n12 n21,
    remove_channel out1 C2 = Ret (Done (out, n12)) /\
    remove_channel out2 C1 = Ret (Done (out, n21)) /\
    (n1 + n12 = n2 + n21)%nat.
Proof.
  intros Hv H1 H2.
  rewrite (remove_channel_rewritten data C1 Hv) in H1.
  rewrite (remove_channel_rewritten data C2 Hv) in H2.
  injection H1 as <- <-. injection H2 as <- <-.
  set (d1 := remove_drops (codemap_of data) C1).
  set (d2 := remove_drops (codemap_of data) C2).
  set (k1 := fun t => negb (d1 t)). set (k2 := fun t => negb (d2 t)).
  eexists _, _, _. split; [|split].
  - rewrite (remove_channel_rewritten _ C2 (rewritten_valid data k1 Hv)).
    rewrite (rewritten_codemap data k1 Hv). fold d2 k2.
    rewrite (rewritten_compose data k1 k2 Hv), (rewritten_tokens data k1 Hv).
    reflexivity.
  - rewrite (remove_channel_rewritten _ C1 (rewritten_valid data k2 Hv)).
    rewrite (rewritten_codemap data k2 Hv). fold d1 k1.
    rewrite (rewritten_compose data k2 k1 Hv), (rewritten_tokens data k2 Hv).
    now rewrite (filter_swap _ k1 k2).
  - unfold k1, k2. rewrite !filter_counts_union.
    f_equal. apply filter_ext. intros t. apply orb_comm.
Qed.

Lemma remove_commutes_witness :
  valid_dro sample_file /\
  exists out n12 n21,
    remove_channel
      (firstn 29 sample_file ++ [0x7A; 0x09; 0x81; 0x3F; 0x02; 0x20; 0x05; 0x11]) 9
      = Ret (Done (out, n12)) /\
    remove_channel
      (firstn 29 sample_file ++ [0x00; 0x30; 0x7A; 0x09; 0x02; 0x20; 0x05; 0x11]) 0
      = Ret (Done (out, n21)) /\
    (1 + n12 = 1 + n21)%nat.
Proof.
  split; [exact sample_file_valid|].
  apply (remove_commutes sample_file 0 9 _ _ 1%nat 1%nat sample_file_valid);
    reflexivity.
Defined.

(** X11: Remove and Isolate commute too: Remove(C1) followed by Isolate(C2)
    writes the same bytes as Isolate(C2) followed by Remove(C1), with the
    same total of dropped tokens. *)
Theorem remove_isolate_commute (data : list Z) (C1 C2 : Z)
    (out1 out2 : list Z) (n1 n2 : nat) :
  valid_dro data ->
  remove_channel data C1 = Ret (Done (out1, n1)) ->
  isolate_channel data C2 = Ret (Done (out2, n2)) ->
  exists out n12 n21,
    isolate_channel out1 C2 = Ret (Done (out, n12)) /\
    remove_channel out2 C1 = Ret (Done (out, n21)) /\
    (n1 + n12 = n2 + n21)%nat.
Proof.
  intros Hv H1 H2.
  rewrite (remove_channel_rewritten data C1 Hv) in H1.
  rewrite (isolate_channel_rewritten data C2 Hv) in H2.
  injection H1 as <- <-. injection H2 as <- <-.
  set (d1 := remove_drops (codemap_of data) C1).
  set (k2 := isolate_keeps (codemap_of data) C2).
  set (k1 := fun t => negb (d1 t)). set (d2 := fun t => negb (k2 t)).
  eexists _, _, _. split; [|split].
  - rewrite (isolate_channel_rewritten _ C2 (rewritten_valid data k1 Hv)).
    rewrite (rewritten_codemap data k1 Hv). fold k2 d2.
    rewrite (rewritten_compose data k1 k2 Hv), (rewritten_tokens data k1 Hv).
    reflexivity.
  - rewrite (remove_channel_rewritten _ C1 (rewritten_valid data k2 Hv)).
    rewrite (rewritten_codemap data k2 Hv). fold d1 k1.
    rewrite (rewritten_compose data k2 k1 Hv), (rewritten_tokens data k2 Hv).
    now rewrite (filter_swap _ k1 k2).
  - unfold k1. rewrite (filter_counts_union _ d1 d2).
    assert (E : filter d1 (filter k2 (tokens_of data))
                = filter d1 (filter (fun t => negb (d2 t)) (tokens_of data))).
    { f_equal. apply filter_ext. intros t. unfold d2. now rewrite negb_involutive. }
    rewrite E, (filter_counts_union _ d2 d1).
    f_equal. apply filter_ext. intros t. apply orb_comm.
Qed.

Lemma remove_isolate_commute_witness :
  valid_dro sample_file /\
  exists out n12 n21,
    isolate_channel
      (firstn 29 sample_file ++ [0x00; 0x30; 0x7A; 0x09; 0x02; 0x20; 0x05; 0x11]) 0
      = Ret (Done (out, n12)) /\
    remove_channel
      (firstn 29 sample_file ++ [0x00; 0x30; 0x7A; 0x09; 0x02; 0x20; 0x05; 0x11]) 9
      = Ret (Done (out, n21)) /\
    (1 + n12 = 1 + n21)%nat.
Proof.
  split; [exact sample_file_valid|].
  apply (remove_isolate_commute sample_file 9 0 _ _ 1%nat 1%nat sample_file_valid);
    reflexivity.
Defined.

(** ** The dumper, token by token *)

Section DumpRows.

Variables (data codemap : list Z) (sd ld : Z).

Lemma dump_loop_rows : forall s i t printed fuel,
  skipn i data = s -> (length s < fuel)%nat ->
  dump_loop fuel data codemap sd ld i t printed =
  Ret (printed ++ stream_rows codemap sd ld i t s, t + stream_time sd ld s).
Proof.
  induction s as [| a | a b s IH] using pair_ind;
    intros i t printed [|fuel] Hs Hfuel; try (simpl in Hfuel; lia).
  - rewrite dump_loop_end by (now apply skipn_nil_length).
    cbn. now rewrite app_nil_r, Z.add_0_r.
  - cbn [dump_loop]. read_byte Hs a. apply skipn_nil_length in Hs.
    replace (length data <=? S i)%nat with true
      by (symmetry; apply Nat.leb_le; lia).
    cbn. rewrite app_nil_r, Z.add_0_r.
    destruct (a =? sd); [reflexivity|]. now destruct (a =? ld).
  - cbn [dump_loop]. read_byte Hs a. read_byte Hs b.
    replace (length data <=? S i)%nat with false
      by (symmetry; apply Nat.leb_gt; lia).
    assert (Hf : (length s < fuel)%nat) by (simpl in Hfuel; lia).
    cbn [stream_rows stream_time].
    destruct (a =? sd).
    { rewrite (IH _ _ _ _ Hs Hf). f_equal. f_equal. lia. }
    destruct (a =? ld).
    { rewrite (IH _ _ _ _ Hs Hf). f_equal. f_equal. lia. }
    destruct (index_of a >=? Z.of_nat (length codemap)) eqn:Eidx.
    + rewrite (resolve_out_of_range _ _ b Eidx), (IH _ _ _ _ Hs Hf).
      rewrite <- app_assoc. reflexivity.
    + destruct (resolve_in_range codemap a b Eidx) as (reg & -> & ->).
      cbn [bind].
      destruct (is_empty (describe reg b)); cbn [negb];
        rewrite (IH _ _ _ _ Hs Hf); [reflexivity|].
      rewrite <- app_assoc. reflexivity.
Qed.

End DumpRows.

Lemma dump_dro_rows data :
  complete_header data ->
  dump_dro data =
  Ret (Done (heading data
             ++ stream_rows (codemap_of data) (short_delay_of data)
                  (long_delay_of data) (codemap_end data) 0 (stream_of data),
             stream_time (short_delay_of data) (long_delay_of data)
               (stream_of data))).
Proof.
  intros Hc. pose proof (complete_header_length _ Hc) as Hlen.
  destruct Hc as (Hm & Hmaj & _).
  rewrite (dump_dro_loop data Hm Hmaj Hlen).
  rewrite (dump_loop_rows data _ _ _ (stream_of data) _ _ _ _ eq_refl
             (stream_fuel data)).
  reflexivity.
Qed.

(** The rows of a filtered stream are the rows of the input whose token
    the filter keeps, in the same order and with the same times. *)
Section RowsOfKept.

Variables (codemap : list Z) (sd ld : Z).
Variables (keeps : StreamToken -> bool) (survives : line -> bool).

Hypothesis keeps_delay : forall c v, keeps (Delay c v) = true.
Hypothesis keeps_unresolved : forall c v,
  resolve codemap (RegisterWrite c v) = None -> keeps (RegisterWrite c v) = true.
Hypothesis survives_row : forall c v reg o t,
  resolve codemap (RegisterWrite c v) = Some reg ->
  survives (Row o t (bank_of c) reg v (describe reg v)) = keeps (RegisterWrite c v).
Hypothesis survives_bad_index : forall o t bank idx v desc,
  survives (BadIndexRow o t bank idx v desc) = true.

Lemma rows_of_kept : forall s o1 o2 t,
  map unplaced
    (stream_rows codemap sd ld o2 t
       (flat_map token_bytes (filter keeps (decode sd ld s)))) =
  map unplaced (filter survives (stream_rows codemap sd ld o1 t s)).
Proof.
  induction s as [| a | a b s IH] using pair_ind; intros o1 o2 t;
    try reflexivity.
  cbn [decode stream_rows].
  destruct (a =? sd) eqn:Esd.
  { cbn [orb filter]. rewrite keeps_delay. cbn [flat_map token_bytes app stream_rows].
    rewrite Esd. apply IH. }
  destruct (a =? ld) eqn:Eld.
  { cbn [orb filter]. rewrite keeps_delay. cbn [flat_map token_bytes app stream_rows].
    rewrite Esd, Eld. apply IH. }
  cbn [orb filter]. rewrite filter_app, map_app.
  destruct (resolve codemap (RegisterWrite a b)) as [reg|] eqn:Eres.
  - destruct (keeps (RegisterWrite a b)) eqn:Ek.
    + cbn [flat_map token_bytes app stream_rows]. rewrite Esd, Eld, Eres, map_app.
      f_equal; [|apply IH].
      destruct (is_empty (describe reg b)); [reflexivity|].
      cbn [filter]. now rewrite (survives_row _ _ _ _ _ Eres), Ek.
    + rewrite (IH (S (S o1)) o2 t).
      destruct (is_empty (describe reg b)); [reflexivity|].
      cbn [filter]. now rewrite (survives_row _ _ _ _ _ Eres), Ek.
  - rewrite (keeps_unresolved _ _ Eres).
    cbn [flat_map token_bytes app stream_rows]. rewrite Esd, Eld, Eres, map_app.
    f_equal; [|apply IH].
    cbn [filter]. now rewrite survives_bad_index.
Qed.

Lemma time_of_kept : forall s,
  stream_time sd ld (flat_map token_bytes (filter keeps (decode sd ld s))) =
  stream_time sd ld s.
Proof.
  induction s as [| a | a b s IH] using pair_ind; try reflexivity.
  cbn [decode stream_time].
  destruct (a =? sd) eqn:Esd.
  { cbn [orb filter]. rewrite keeps_delay. cbn [flat_map token_bytes app stream_time].
    now rewrite Esd, IH. }
  destruct (a =? ld) eqn:Eld.
  { cbn [orb filter]. rewrite keeps_delay. cbn [flat_map token_bytes app stream_time].
    now rewrite Esd, Eld, IH. }
  cbn [orb filter]. destruct (keeps (RegisterWrite a b)).
  - cbn [flat_map token_bytes app stream_time]. now rewrite Esd, Eld, IH.
  - now rewrite IH.
Qed.

End RowsOfKept.

Lemma rewritten_heading data keeps :
  valid_dro data -> heading (rewritten keeps data) = heading data.
Proof.
  intros Hv. unfold heading.
  destruct (rewritten_opcodes data keeps Hv) as [-> ->].
  rewrite (rewritten_byte data keeps Hv 25); [reflexivity|].
  pose proof (codemap_end_min data). lia.
Qed.

Lemma dump_rewritten data keeps :
  valid_dro data ->
  dump_dro (rewritten keeps data) =
  Ret (Done (heading data
             ++ stream_rows (codemap_of data) (short_delay_of data)
                  (long_delay_of data) (codemap_end data) 0
                  (flat_map token_bytes (filter keeps (tokens_of data))),
             stream_time (short_delay_of data) (long_delay_of data)
               (flat_map token_bytes (filter keeps (tokens_of data))))).
Proof.
  intros Hv.
  rewrite (dump_dro_rows _ (valid_complete _ (rewritten_valid data keeps Hv))).
  rewrite (rewritten_heading data keeps Hv), (rewritten_codemap data keeps Hv).
  rewrite (rewritten_codemap_end data keeps Hv), (rewritten_stream data keeps Hv).
  destruct (rewritten_opcodes data keeps Hv) as [-> ->]. reflexivity.
Qed.

(** X12: Dumping the output of Remove(C) shows the rows of the input's dump
    that are not rows of channel C, in the same order and with the same
    time, bank, register, value and description; only the offsets move.
    The accumulated time at the end is the same. *)
Theorem dump_after_remove (data : list Z) (C : Z) (out : list Z) (n : nat) :
  valid_dro data ->
  remove_channel data C = Ret (Done (out, n)) ->
  exists rows rows' t,
    dump_dro data = Ret (Done (heading data ++ rows, t)) /\
    dump_dro out = Ret (Done (heading data ++ rows', t)) /\
    map unplaced rows' = map unplaced (filter (row_survives_remove C) rows).
Proof.
  intros Hv H. rewrite (remove_channel_rewritten data C Hv) in H.
  injection H as <- _.
  eexists _, _, _. split; [exact (dump_dro_rows data (valid_complete _ Hv))|].
  set (k := fun t => negb (remove_drops (codemap_of data) C t)).
  assert (Hdelay : forall c v, k (Delay c v) = true) by reflexivity.
  assert (Hunres : forall c v,
            resolve (codemap_of data) (RegisterWrite c v) = None ->
            k (RegisterWrite c v) = true).
  { intros c v E. unfold k. now rewrite (remove_drops_unresolved _ C _ _ E). }
  split.
  - rewrite (dump_rewritten data k Hv). unfold tokens_of.
    rewrite (time_of_kept _ _ k Hdelay). reflexivity.
  - unfold tokens_of.
    apply (rows_of_kept (codemap_of data) _ _ k (row_survives_remove C) Hdelay Hunres).
    + intros c v reg o t E. unfold k.
      now rewrite (remove_drops_resolved _ C _ _ _ E).
    + reflexivity.
Qed.

Lemma dump_after_remove_witness :
  valid_dro sample_file /\
  exists rows rows' t,
    dump_dro sample_file = Ret (Done (heading sample_file ++ rows, t)) /\
    dump_dro (firstn 29 sample_file
              ++ [0x7A; 0x09; 0x81; 0x3F; 0x02; 0x20; 0x05; 0x11])
      = Ret (Done (heading sample_file ++ rows', t)) /\
    map unplaced rows' = map unplaced (filter (row_survives_remove 0) rows).
Proof.
  split; [exact sample_file_valid|].
  apply (dump_after_remove sample_file 0 _ 1%nat sample_file_valid). reflexivity.
Defined.

(** X13: Dumping the output of Isolate(C) shows the rows of the input's dump
    for register 0xBD, for channel C and for Global registers, and the
    rows of out-of-range indices, with unchanged times; the accumulated
    time at the end is the same. *)
Theorem dump_after_isolate (data : list Z) (C : Z) (out : list Z) (n : nat) :
  valid_dro data ->
  isolate_channel data C = Ret (Done (out, n)) ->
  exists rows rows' t,
    dump_dro data = Ret (Done (heading data ++ rows, t)) /\
    dump_dro out = Ret (Done (heading data ++ rows', t)) /\
    map unplaced rows' = map unplaced (filter (row_survives_isolate C) rows).
Proof.
  intros Hv H. rewrite (isolate_channel_rewritten data C Hv) in H.
  injection H as <- _.
  eexists _, _, _. split; [exact (dump_dro_rows data (valid_complete _ Hv))|].
  set (k := isolate_keeps (codemap_of data) C).
  assert (Hdelay : forall c v, k (Delay c v) = true) by reflexivity.
  assert (Hunres : forall c v,
            resolve (codemap_of data) (RegisterWrite c v) = None ->
            k (RegisterWrite c v) = true).
  { intros c v E. unfold k. now rewrite (isolate_keeps_unresolved _ C _ _ E). }
  split.
  - rewrite (dump_rewritten data k Hv). unfold tokens_of.
    rewrite (time_of_kept _ _ k Hdelay). reflexivity.
  - unfold tokens_of.
    apply (rows_of_kept (codemap_of data) _ _ k (row_survives_isolate C) Hdelay Hunres).
    + intros c v reg o t E. unfold k.
      now rewrite (isolate_keeps_resolved _ C _ _ _ E).
    + reflexivity.
Qed.

Lemma dump_after_isolate_witness :
  valid_dro sample_file /\
  exists rows rows' t,
    dump_dro sample_file = Ret (Done (heading sample_file ++ rows, t)) /\
    dump_dro (firstn 29 sample_file
              ++ [0x00; 0x30; 0x7A; 0x09; 0x02; 0x20; 0x05; 0x11])
      = Ret (Done (heading sample_file ++ rows', t)) /\
    map unplaced rows' = map unplaced (filter (row_survives_isolate 0) rows).
Proof.
  split; [exact sample_file_valid|].
  apply (dump_after_isolate sample_file 0 _ 1%nat sample_file_valid). reflexivity.
Defined.

(** ** What the dumper prints a row for *)

Lemma describe_empty reg val :
  is_empty (describe reg val) = false ->
  0xB0 <= reg <= 0xB8 \/ 0xA0 <= reg <= 0xA8 \/ 0xC0 <= reg <= 0xC8
  \/ 0x20 <= reg <= 0x35 \/ 0x40 <= reg <= 0x55 \/ reg = 0xBD.
Proof.
  unfold describe.
  destruct (between 0xB0 reg 0xB8) eqn:E1; [apply between_spec in E1; tauto|].
  destruct (between 0xA0 reg 0xA8) eqn:E2; [apply between_spec in E2; tauto|].
  destruct (between 0xC0 reg 0xC8) eqn:E3; [apply between_spec in E3; tauto|].
  destruct (between 0x20 reg 0x35) eqn:E4; [apply between_spec in E4; tauto|].
  destruct (between 0x40 reg 0x55) eqn:E5; [apply between_spec in E5; tauto|].
  destruct (reg =? 0xBD) eqn:E6; [apply Z.eqb_eq in E6; tauto|].
  discriminate.
Qed.

Lemma bank_of_bit code : bank_of code = 0 \/ bank_of code = 1.
Proof.
  unfold bank_of.
  assert (E : forall x, Z.land x 1 = x mod 2)
    by (intros x; apply (Z.land_ones x 1); lia).
  rewrite E. Z.to_euclidean_division_equations. lia.
Qed.

Lemma resolve_in_codemap codemap code val reg :
  resolve codemap (RegisterWrite code val) = Some reg -> In reg codemap.
Proof.
  unfold resolve. destruct (index_of code >=? Z.of_nat (length codemap));
    [discriminate|]. apply nth_error_In.
Qed.

Lemma stream_rows_rows codemap sd ld : forall s o0 t0 o t bank reg v desc,
  In (Row o t bank reg v desc) (stream_rows codemap sd ld o0 t0 s) ->
  (o0 <= o /\ o + 2 <= o0 + length s)%nat /\
  (bank = 0 \/ bank = 1) /\ In reg codemap /\ desc = describe reg v /\
  is_empty desc = false.
Proof.
  induction s as [| a | a b s IH] using pair_ind;
    intros o0 t0 o t bank reg v desc Hin; try contradiction.
  cbn [stream_rows] in Hin.
  assert (Hrest : forall t1,
            In (Row o t bank reg v desc)
               (stream_rows codemap sd ld (S (S o0)) t1 s) ->
            (o0 <= o /\ o + 2 <= o0 + length (a :: b :: s))%nat /\
            (bank = 0 \/ bank = 1) /\ In reg codemap /\ desc = describe reg v /\
            is_empty desc = false).
  { intros t1 H. destruct (IH _ _ _ _ _ _ _ _ H) as (Ho & Hr). split; [|exact Hr].
    cbn [length]. lia. }
  destruct (a =? sd); [exact (Hrest _ Hin)|].
  destruct (a =? ld); [exact (Hrest _ Hin)|].
  apply in_app_or in Hin. destruct Hin as [Hin | Hin]; [|exact (Hrest _ Hin)].
  destruct (resolve codemap (RegisterWrite a b)) as [r|] eqn:Eres.
  - destruct (is_empty (describe r b)) eqn:Eempty; [contradiction|].
    destruct Hin as [Hin | []]. injection Hin as <- <- <- <- <- <-.
    split; [cbn [length]; lia|]. split; [apply bank_of_bit|].
    split; [exact (resolve_in_codemap _ _ _ _ Eres)|]. split; [reflexivity|exact Eempty].
  - destruct Hin as [Hin | []]. discriminate.
Qed.

(** X14: Every row the dumper prints for a resolved write lies on a token of
    the command stream, shows bank 0 or 1 and a register of the codemap,
    and that register is in 0x20-0x35, 0x40-0x55, 0xA0-0xA8, 0xB0-0xB8,
    0xC0-0xC8 or is 0xBD: writes to the operator registers 0x60-0x75,
    0x80-0x95 and 0xE0-0xF5 and to every other register are never
    shown. *)
Theorem dumped_rows (data : list Z) (lines : list line) (total : Z)
    (o : nat) (t bank reg v : Z) (desc : string) :
  complete_header data ->
  dump_dro data = Ret (Done (lines, total)) ->
  In (Row o t bank reg v desc) lines ->
  (codemap_end data <= o /\ o + 2 <= length data)%nat /\
  (bank = 0 \/ bank = 1) /\
  In reg (codemap_of data) /\
  desc = describe reg v /\
  (0xB0 <= reg <= 0xB8 \/ 0xA0 <= reg <= 0xA8 \/ 0xC0 <= reg <= 0xC8
   \/ 0x20 <= reg <= 0x35 \/ 0x40 <= reg <= 0x55 \/ reg = 0xBD).
Proof.
  intros Hc H Hin. rewrite (dump_dro_rows data Hc) in H.
  injection H as <- _. cbn [heading app In] in Hin.
  destruct Hin as [Hin | [Hin | [Hin | Hin]]]; try discriminate.
  destruct (stream_rows_rows _ _ _ _ _ _ _ _ _ _ _ _ Hin)
    as ((Ho1 & Ho2) & Hb & Hreg & Hdesc & Hne).
  split.
  { unfold stream_of in Ho2. rewrite length_skipn in Ho2.
    destruct Hc as (_ & _ & Hce). lia. }
  split; [exact Hb|]. split; [exact Hreg|]. split; [exact Hdesc|].
  subst desc. now apply describe_empty in Hne.
Qed.

Lemma dumped_rows_witness :
  complete_header sample_file /\
  In 0xB0 (codemap_of sample_file) /\
  dump_dro sample_file =
    Ret (Done (heading sample_file
               ++ [Row 29 0 0 0xB0 0x30 (describe 0xB0 0x30);
                   Row 33 10 1 0x43 0x3F (describe 0x43 0x3F);
                   Row 35 10 0 0xBD 0x20 (describe 0xBD 0x20);
                   BadIndexRow 37 10 0 5 0x11 "ERROR: Index 5 out of bounds"], 10)).
Proof.
  assert (Hc : complete_header sample_file)
    by exact (valid_complete _ sample_file_valid).
  assert (Hd : dump_dro sample_file =
    Ret (Done (heading sample_file
               ++ [Row 29 0 0 0xB0 0x30 (describe 0xB0 0x30);
                   Row 33 10 1 0x43 0x3F (describe 0x43 0x3F);
                   Row 35 10 0 0xBD 0x20 (describe 0xBD 0x20);
                   BadIndexRow 37 10 0 5 0x11 "ERROR: Index 5 out of bounds"], 10)))
    by reflexivity.
  split; [exact Hc|]. split; [|exact Hd].
  refine (proj1 (proj2 (proj2 (dumped_rows sample_file _ _ 29 0 0 0xB0 0x30 _ Hc Hd _)))).
  apply in_or_app. right. left. reflexivity.
Defined.

(** ** Descriptions *)

Lemma note_start_table :
  forallb (fun reg =>
    forallb (fun val =>
      Bool.eqb (mentions "note start" (describe reg val))
               (between 0xB0 reg 0xB8 && negb (Z.land val 0x20 =? 0)))
      bytes256) bytes256 = true.
Proof. vm_compute. reflexivity. Qed.

Lemma channel_label_table :
  forallb (fun reg =>
    forallb (fun val =>
      implb (is_channel_reg reg)
            (String.prefix ("CH " ++ dec (get_channel_from_reg 0 reg) ++ " |")
               (describe reg val)))
      bytes256) bytes256 = true.
Proof. vm_compute. reflexivity. Qed.

Lemma byte_pairs (P : Z -> Z -> bool) :
  forallb (fun x => forallb (fun y => P x y) bytes256) bytes256 = true ->
  forall x y, 0 <= x < 256 -> 0 <= y < 256 -> P x y = true.
Proof.
  intros T x y Hx Hy. rewrite forallb_forall in T.
  specialize (T _ (in_bytes256 _ Hx)). rewrite forallb_forall in T.
  exact (T _ (in_bytes256 _ Hy)).
Qed.

(** X17: A description carries the note-start mark exactly for a write to one
    of the registers 0xB0-0xB8 whose value has bit 5 (key-on) set. *)
Theorem note_start_iff_key_on (reg val : Z) :
  0 <= reg < 256 -> 0 <= val < 256 ->
  (mentions "note start" (describe reg val) = true <->
   0xB0 <= reg <= 0xB8 /\ Z.land val 0x20 <> 0).
Proof.
  intros Hr Hv. pose proof (byte_pairs _ note_start_table reg val Hr Hv) as T.
  apply Bool.eqb_prop in T. rewrite T.
  rewrite andb_true_iff, negb_true_iff, between_spec, Z.eqb_neq. tauto.
Qed.

Lemma note_start_iff_key_on_witness :
  0 <= 0xB2 < 256 /\ 0 <= 0x11 < 256 /\
  mentions "note start" (describe 0xB2 0x11) <> true.
Proof.
  assert (Hr : 0 <= 0xB2 < 256) by lia. assert (Hv : 0 <= 0x11 < 256) by lia.
  split; [exact Hr|]. split; [exact Hv|].
  intros H. apply (note_start_iff_key_on 0xB2 0x11 Hr Hv) in H.
  destruct H as [_ H]. apply H. reflexivity.
Defined.

(** X18: The channel shown in the description of a per-channel register is the
    channel the classifier gives for bank 0: the label does not depend on
    the bank of the write, so a write of bank 1 is labelled with its
    channel minus 9. *)
Theorem channel_label_is_bank_relative (reg val : Z) :
  channel_range reg -> 0 <= val < 256 ->
  String.prefix ("CH " ++ dec (get_channel_from_reg 0 reg) ++ " |")
    (describe reg val) = true /\
  get_channel_from_reg 1 reg = get_channel_from_reg 0 reg + 9.
Proof.
  intros Hreg Hval.
  assert (Hr : 0 <= reg < 256) by (unfold channel_range in Hreg; lia).
  pose proof (byte_pairs _ channel_label_table reg val Hr Hval) as T.
  cbv beta in T. rewrite (proj2 (is_channel_reg_spec reg) Hreg) in T.
  split; [exact T|].
  unfold get_channel_from_reg. rewrite (proj2 (is_channel_reg_spec reg) Hreg).
  change (base_ch 1) with 9. change (base_ch 0) with 0. lia.
Qed.

Lemma channel_label_is_bank_relative_witness :
  channel_range 0xC4 /\ 0 <= 0x0E < 256 /\
  String.prefix "CH 4 |" (describe 0xC4 0x0E) = true.
Proof.
  assert (Hr : channel_range 0xC4) by (unfold channel_range; lia).
  assert (Hv : 0 <= 0x0E < 256) by lia.
  split; [exact Hr|]. split; [exact Hv|].
  exact (proj1 (channel_label_is_bank_relative 0xC4 0x0E Hr Hv)).
Defined.

(** ** A lone last byte, in general *)

Lemma dump_dro_total_witness :
  firstn 8 lone_byte_file = magic /\
  (26 <= length lone_byte_file)%nat /\
  exists r, dump_dro lone_byte_file = Ret (Done r).
Proof.
  assert (Hm : firstn 8 lone_byte_file = magic) by reflexivity.
  assert (Hl : (26 <= length lone_byte_file)%nat) by (vm_compute; lia).
  split; [exact Hm|]. split; [exact Hl|].
  exact (dump_dro_total lone_byte_file Hm eq_refl Hl).
Defined.

Lemma stream_rows_lone_byte codemap sd ld x : forall s o t,
  Nat.even (length s) = true ->
  stream_rows codemap sd ld o t (s ++ [x]) = stream_rows codemap sd ld o t s /\
  stream_time sd ld (s ++ [x]) = stream_time sd ld s.
Proof.
  induction s as [| a | a b s IH] using pair_ind; intros o t He;
    [split; reflexivity | discriminate |].
  cbn [app stream_rows stream_time].
  assert (He' : Nat.even (length s) = true) by exact He.
  destruct (a =? sd); [|destruct (a =? ld)];
    (split; [rewrite (proj1 (IH _ _ He')) | rewrite (proj2 (IH 0%nat 0 He'))];
     reflexivity).
Qed.

Section LoneByte.

Variables (data : list Z) (x : Z).
Hypothesis Hvalid : valid_dro data.

Lemma appended_byte i :
  (i < length data)%nat -> byte_at (data ++ [x]) i = byte_at data i.
Proof. intros Hi. unfold byte_at. now apply app_nth1. Qed.

Lemma appended_codemap_end : codemap_end (data ++ [x]) = codemap_end data.
Proof.
  pose proof (complete_header_length _ (valid_complete _ Hvalid)).
  unfold codemap_end. now rewrite appended_byte by lia.
Qed.

Lemma appended_complete : complete_header (data ++ [x]).
Proof.
  pose proof (complete_header_length _ (valid_complete _ Hvalid)) as Hlen.
  destruct Hvalid as (Hm & Hmaj & Hce & _).
  unfold complete_header. rewrite appended_codemap_end, !appended_byte by lia.
  repeat split; [|exact Hmaj|rewrite length_app; lia].
  rewrite firstn_app. replace (8 - length data)%nat with 0%nat by lia.
  now rewrite firstn_O, app_nil_r.
Qed.

Lemma appended_stream : stream_of (data ++ [x]) = stream_of data ++ [x].
Proof.
  destruct Hvalid as (_ & _ & Hce & _).
  unfold stream_of. rewrite appended_codemap_end, skipn_app.
  now replace (codemap_end data - length data)%nat with 0%nat by lia.
Qed.

Lemma appended_codemap : codemap_of (data ++ [x]) = codemap_of data.
Proof.
  destruct Hvalid as (_ & _ & Hce & _).
  unfold codemap_of, slice. rewrite appended_codemap_end, skipn_app, firstn_app.
  rewrite length_skipn.
  replace (codemap_end data - 26 - (length data - 26))%nat with 0%nat by lia.
  now rewrite firstn_O, app_nil_r.
Qed.

End LoneByte.

(** X16: The dumper ignores a lone last byte: a valid file with one more byte
    appended is dumped exactly like the file itself (the filters raise
    [IndexError] on it). *)
Theorem dump_ignores_lone_byte (data : list Z) (x : Z) :
  valid_dro data ->
  dump_dro (data ++ [x]) = dump_dro data /\
  forall C, remove_channel (data ++ [x]) C = Raise IndexError /\
            isolate_channel (data ++ [x]) C = Raise IndexError.
Proof.
  intros Hv.
  pose proof (complete_header_length _ (valid_complete _ Hv)) as Hlen.
  split.
  - rewrite (dump_dro_rows _ (appended_complete data x Hv)).
    rewrite (dump_dro_rows _ (valid_complete _ Hv)).
    unfold heading, short_delay_of, long_delay_of.
    rewrite !(appended_byte data x) by lia.
    rewrite (appended_codemap data x Hv), (appended_codemap_end data x Hv).
    rewrite (appended_stream data x Hv).
    destruct (stream_rows_lone_byte (codemap_of data) (byte_at data 23)
                (byte_at data 24) x (stream_of data) (codemap_end data) 0
                (valid_stream_even _ Hv)) as [-> ->].
    reflexivity.
  - intros C. apply filters_raise_on_lone_byte; [exact (appended_complete data x Hv)|].
    rewrite (appended_stream data x Hv), length_app, Nat.add_comm.
    cbn [length Nat.add]. rewrite Nat.even_succ, <- Nat.negb_even.
    now rewrite (valid_stream_even _ Hv).
Qed.

Lemma dump_ignores_lone_byte_witness :
  valid_dro sample_file /\ dump_dro (sample_file ++ [0x42]) = dump_dro sample_file.
Proof.
  split; [exact sample_file_valid|].
  exact (proj1 (dump_ignores_lone_byte sample_file 0x42 sample_file_valid)).
Defined.

(** ** The calculator beyond zero semitones *)

Lemma lower_block_bounds : forall fuel f blk f' blk',
  0 <= blk -> lower_block fuel f blk = Ret (f', blk') -> 0 <= blk' <= blk.
Proof.
  induction fuel as [|fuel IH]; intros f blk f' blk' Hb H; [discriminate|].
  cbn [lower_block] in H.
  destruct ((f <? 512) && (blk >? 0)) eqn:E.
  - apply andb_true_iff in E. destruct E as [_ E]. apply Z.gtb_gt in E.
    apply IH in H; lia.
  - injection H as <- <-. lia.
Qed.

Lemma key_on_bit_table :
  forallb (fun x => (Z.land x 0x20 =? 0) || (Z.land x 0x20 =? 0x20)) bytes256 = true.
Proof. vm_compute. reflexivity. Qed.

Lemma key_on_bit hex_b0 : Z.land hex_b0 0x20 = 0 \/ Z.land hex_b0 0x20 = 0x20.
Proof.
  assert (E : Z.land hex_b0 0x20 = Z.land (hex_b0 mod 256) 0x20).
  { change 256 with (2 ^ 8). rewrite <- Z.land_ones by lia.
    now rewrite <- Z.land_assoc. }
  rewrite E. pose proof key_on_bit_table as T. rewrite forallb_forall in T.
  specialize (T (hex_b0 mod 256) (in_bytes256 _ (Z.mod_pos_bound hex_b0 256 eq_refl))).
  apply orb_true_iff in T. rewrite !Z.eqb_eq in T. exact T.
Qed.

Lemma pack_bounds key_on blk f_high :
  key_on = 0 \/ key_on = 0x20 -> 0 <= blk <= 7 -> 0 <= f_high <= 3 ->
  0 <= Z.lor (Z.lor key_on (Z.shiftl blk 2)) f_high <= 63 /\
  Z.land (Z.lor (Z.lor key_on (Z.shiftl blk 2)) f_high) 0x20 = key_on /\
  block_of (Z.lor (Z.lor key_on (Z.shiftl blk 2)) f_high) = blk.
Proof.
  intros Hk Hb Hf.
  assert (Eb : blk = 0 \/ blk = 1 \/ blk = 2 \/ blk = 3 \/ blk = 4 \/ blk = 5
               \/ blk = 6 \/ blk = 7) by lia.
  assert (Ef : f_high = 0 \/ f_high = 1 \/ f_high = 2 \/ f_high = 3) by lia.
  destruct Hk as [-> | ->];
    destruct Eb as [-> | [-> | [-> | [-> | [-> | [-> | [-> | ->]]]]]]];
    destruct Ef as [-> | [-> | [-> | ->]]];
    (split; [vm_compute; split; discriminate | split; reflexivity]).
Qed.

(** X19: For two input bytes, and semitones whose twelfth is below 1024
    (where Python's power of 2 returns a float and does not raise), the
    two bytes the calculator returns are in range, whatever the power
    function returns: the low byte is at most 0xFF, the combined byte at
    most 0x3F (bits 6 and 7 are never set), and its key-on bit is the
    key-on bit of the input. *)
Theorem calc_shift_output_range (pow : float -> float -> float)
    (hex_a0 hex_b0 : Z) (semitones : float) (new_f_low new_b0_val : Z) :
  0 <= hex_a0 < 256 -> 0 <= hex_b0 < 256 ->
  PrimFloat.ltb (PrimFloat.div semitones 12%float) 1024%float = true ->
  calc_shift pow hex_a0 hex_b0 semitones = Ret (new_f_low, new_b0_val) ->
  0 <= new_f_low <= 255 /\
  0 <= new_b0_val <= 63 /\
  Z.land new_b0_val 0x20 = Z.land hex_b0 0x20.
Proof.
  intros _ _ _. unfold calc_shift, shift_by. cbv zeta.
  destruct (int_of_float _) as [new_f_num | e |]; cbn [bind]; try discriminate.
  pose proof (block_field hex_b0) as Hb.
  destruct (raise_block_total 8 new_f_num (Z.shiftr (Z.land hex_b0 0x1C) 2))
    as (f1 & b1 & -> & Hb1); [lia|]. cbn [bind].
  destruct (lower_block 8 f1 b1) as [[f2 b2] | e |] eqn:E2; cbn [bind];
    try discriminate.
  apply lower_block_bounds in E2; [|lia].
  intros H. injection H as <- <-.
  assert (Hlo : Z.land f2 0xFF = f2 mod 256) by (apply (Z.land_ones f2 8); lia).
  assert (Hhi : Z.land (Z.shiftr f2 8) 0x03 = (Z.shiftr f2 8) mod 4)
    by (apply (Z.land_ones _ 2); lia).
  pose proof (Z.mod_pos_bound f2 256 eq_refl).
  pose proof (Z.mod_pos_bound (Z.shiftr f2 8) 4 eq_refl).
  destruct (pack_bounds (Z.land hex_b0 0x20) b2 (Z.land (Z.shiftr f2 8) 0x03)
              (key_on_bit hex_b0)) as (Hr & Hk & _); [lia | lia |].
  split; [lia|]. split; [exact Hr | exact Hk].
Qed.

Lemma calc_shift_output_range_witness :
  0 <= 0xE2 < 256 /\ 0 <= 0x31 < 256 /\
  PrimFloat.ltb (PrimFloat.div (-12)%float 12%float) 1024%float = true /\
  calc_shift pow_unit_exponents 0xE2 0x31 (-12)%float = Ret (0xC4, 0x2B) /\
  0 <= 0xC4 <= 255 /\ 0 <= 0x2B <= 63.
Proof.
  assert (Ha : 0 <= 0xE2 < 256) by lia.
  assert (Hb : 0 <= 0x31 < 256) by lia.
  assert (Hs : PrimFloat.ltb (PrimFloat.div (-12)%float 12%float) 1024%float = true)
    by reflexivity.
  assert (H : calc_shift pow_unit_exponents 0xE2 0x31 (-12)%float = Ret (0xC4, 0x2B))
    by reflexivity.
  split; [exact Ha|]. split; [exact Hb|]. split; [exact Hs|]. split; [exact H|].
  destruct (calc_shift_output_range pow_unit_exponents 0xE2 0x31 (-12)%float
              0xC4 0x2B Ha Hb Hs H) as (H1 & H2 & _).
  split; [exact H1 | exact H2].
Defined.

Lemma zero_shift_table :
  forallb (fun a => forallb (fun b => zero_shift_check a b) bytes256) bytes256 = true.
Proof. vm_compute. reflexivity. Qed.

Lemma octave_up_table :
  forallb (fun a => forallb (fun b => octave_up_check a b) bytes256) bytes256 = true.
Proof. vm_compute. reflexivity. Qed.

Lemma octave_down_table :
  forallb (fun a => forallb (fun b => octave_down_check a b) bytes256) bytes256 = true.
Proof. vm_compute. reflexivity. Qed.

(** X20: At 0 semitones the calculator returns the normal form of the same
    pitch: the frequency number times two to the block is unchanged, the
    key-on bit is kept, and the result has a frequency number of at least
    512 or block 0.  Applying the calculator to its result changes
    nothing. *)
Theorem calc_shift_zero_normal_form (pow : float -> float -> float)
    (f_low combined : Z) :
  (forall x, pow x 0%float = 1%float) ->
  0 <= f_low < 256 -> 0 <= combined < 256 ->
  exists lo b0,
    calc_shift pow f_low combined 0%float = Ret (lo, b0) /\
    f_num_of lo b0 * 2 ^ block_of b0 = f_num_of f_low combined * 2 ^ block_of combined /\
    Z.land b0 0x20 = Z.land combined 0x20 /\
    (512 <= f_num_of lo b0 \/ block_of b0 = 0) /\
    calc_shift pow lo b0 0%float = Ret (lo, b0).
Proof.
  intros Hpow Ha Hb. rewrite (calc_shift_zero pow Hpow).
  pose proof (byte_pairs _ zero_shift_table f_low combined Ha Hb) as T.
  unfold zero_shift_check in T.
  destruct (shift_by f_low combined 1%float) as [[lo b0] | e |]; try discriminate.
  exists lo, b0. rewrite (calc_shift_zero pow Hpow).
  rewrite !andb_true_iff, !Z.eqb_eq, canonical_spec, unchanged_spec in T.
  destruct T as (((T1 & T2) & _ & T3) & T4). auto.
Qed.

Lemma calc_shift_zero_normal_form_witness :
  (forall x, pow_at_zero x 0%float = 1%float) /\
  exists lo b0, calc_shift pow_at_zero 0x10 0x19 0%float = Ret (lo, b0) /\
                f_num_of lo b0 * 2 ^ block_of b0 = f_num_of 0x10 0x19 * 2 ^ block_of 0x19.
Proof.
  split; [exact pow_at_zero_rule|].
  destruct (calc_shift_zero_normal_form pow_at_zero 0x10 0x19 pow_at_zero_rule)
    as (lo & b0 & H1 & H2 & _); [lia | lia |].
  exists lo, b0. split; [exact H1 | exact H2].
Defined.

(** X21: Twelve semitones up, with a power function for which 2 to the 1 is 2:
    a pair in normal form below block 7 comes back with the same
    frequency number and the block raised by one (the combined byte plus
    4).  At block 7 there is no room: the doubled frequency number is cut
    to ten bits, that is, 1024 is lost, and the block stays 7. *)
Theorem calc_shift_octave_up (pow : float -> float -> float)
    (f_low combined : Z) :
  pow 2%float 1%float = 2%float ->
  0 <= f_low < 256 -> 0 <= combined < 256 ->
  512 <= f_num_of f_low combined ->
  (Z.land combined 0xC0 = 0 -> block_of combined < 7 ->
     calc_shift pow f_low combined 12%float = Ret (f_low, combined + 4)) /\
  (block_of combined = 7 ->
     exists lo b0,
       calc_shift pow f_low combined 12%float = Ret (lo, b0) /\
       f_num_of lo b0 = 2 * f_num_of f_low combined - 1024 /\
       block_of b0 = 7).
Proof.
  intros Hpow Ha Hb Hf.
  assert (E : calc_shift pow f_low combined 12%float = shift_by f_low combined 2%float).
  { unfold calc_shift. cbv zeta.
    change (PrimFloat.div 12%float 12%float) with 1%float. now rewrite Hpow. }
  rewrite E. pose proof (byte_pairs _ octave_up_table f_low combined Ha Hb) as T.
  unfold octave_up_check in T. cbv zeta in T.
  destruct (shift_by f_low combined 2%float) as [[lo b0] | e |]; try discriminate.
  apply andb_true_iff in T. destruct T as [T1 T2]. split.
  - intros Hbits Hblk.
    rewrite (proj2 (Z.eqb_eq _ _) Hbits), (proj2 (Z.leb_le _ _) Hf),
      (proj2 (Z.ltb_lt _ _) Hblk) in T1.
    cbn in T1. apply andb_true_iff in T1. rewrite !Z.eqb_eq in T1.
    destruct T1 as [-> ->]. reflexivity.
  - intros Hblk.
    rewrite (proj2 (Z.leb_le _ _) Hf), (proj2 (Z.eqb_eq _ _) Hblk) in T2.
    cbn in T2. apply andb_true_iff in T2. rewrite !Z.eqb_eq in T2.
    exists lo, b0. split; [reflexivity | exact T2].
Qed.

Lemma pow_unit_exponents_one : pow_unit_exponents 2%float 1%float = 2%float.
Proof. reflexivity. Qed.

Lemma pow_unit_exponents_minus_one :
  pow_unit_exponents 2%float (-1)%float = 0.5%float.
Proof. reflexivity. Qed.

Lemma calc_shift_octave_up_witness :
  pow_unit_exponents 2%float 1%float = 2%float /\
  512 <= f_num_of 0x44 0x32 /\
  calc_shift pow_unit_exponents 0x44 0x32 12%float = Ret (0x44, 0x36).
Proof.
  assert (Hf : 512 <= f_num_of 0x44 0x32) by (vm_compute; discriminate).
  split; [exact pow_unit_exponents_one|]. split; [exact Hf|].
  apply (calc_shift_octave_up pow_unit_exponents 0x44 0x32
           pow_unit_exponents_one); [lia | lia | exact Hf | reflexivity |].
  vm_compute. reflexivity.
Defined.

(** X22: Twelve semitones down, with a power function for which 2 to the -1
    is one half: a pair in normal form above block 0 comes back with the
    block lowered by one (the combined byte minus 4) and the frequency
    number with its lowest bit cleared: the halving and the doubling that
    follows lose that bit. *)
Theorem calc_shift_octave_down (pow : float -> float -> float)
    (f_low combined : Z) :
  pow 2%float (-1)%float = 0.5%float ->
  0 <= f_low < 256 -> 0 <= combined < 256 ->
  Z.land combined 0xC0 = 0 ->
  512 <= f_num_of f_low combined -> 0 < block_of combined ->
  calc_shift pow f_low combined (-12)%float =
    Ret (Z.land f_low 0xFE, combined - 4).
Proof.
  intros Hpow Ha Hb Hbits Hf Hblk.
  assert (E : calc_shift pow f_low combined (-12)%float
              = shift_by f_low combined 0.5%float).
  { unfold calc_shift. cbv zeta.
    change (PrimFloat.div (-12)%float 12%float) with (-1)%float. now rewrite Hpow. }
  rewrite E. pose proof (byte_pairs _ octave_down_table f_low combined Ha Hb) as T.
  unfold octave_down_check in T. cbv zeta in T.
  destruct (shift_by f_low combined 0.5%float) as [[lo b0] | e |]; try discriminate.
  rewrite (proj2 (Z.eqb_eq _ _) Hbits), (proj2 (Z.leb_le _ _) Hf),
    (proj2 (Z.gtb_gt _ _) (Z.lt_gt _ _ Hblk)) in T.
  cbn in T. apply andb_true_iff in T. rewrite !Z.eqb_eq in T.
  destruct T as [-> ->]. reflexivity.
Qed.

Lemma calc_shift_octave_down_witness :
  pow_unit_exponents 2%float (-1)%float = 0.5%float /\
  calc_shift pow_unit_exponents 0x45 0x32 (-12)%float = Ret (0x44, 0x2E).
Proof.
  split; [exact pow_unit_exponents_minus_one|].
  apply (calc_shift_octave_down pow_unit_exponents 0x45 0x32
           pow_unit_exponents_minus_one); try lia; try reflexivity.
  vm_compute. discriminate.
Defined.
